(** * observers-backend: authentication, access policy and chat registry

    A shallow embedding of the parts of the backend that carry a
    behavioural contract: the route decorators and the comment-edit
    handler (access policy), token resolution and the dual-mode user
    lookup (credential service), the socket manager and the chat
    endpoint (connection registry) and the article-rating toggle.

    Conventions.  Python exceptions are values of [exn]; a call that may
    raise returns a [result].  Code that writes to the database threads
    the tables explicitly.  ORM objects are compared by identity in the
    source ([in], [index], [remove]); one session holds one object per
    primary key, so rows are represented by records and row identity by
    the primary key. *)

From Stdlib Require Import ZArith Ascii String Lia Bool.
From stdpp Require Import base list strings gmap.

Local Open Scope Z_scope.

(** ** Python-level plumbing *)

Module Py.

(** The exceptions that can leave the modelled functions.
    [IntegrityError] is the one the database layer raises for a write
    that breaks a constraint of a table. *)
Inductive exn : Type :=
| HTTPException (status_code : Z) (detail : string)
                (headers : list (string * string))
| IntegrityError
| PyValueError (msg : string).

Inductive result (A : Type) : Type :=
| Ok (a : A)
| Raise (e : exn).
Arguments Ok {A} a.
Arguments Raise {A} e.

Definition bind {A B} (r : result A) (k : A -> result B) : result B :=
  match r with
  | Ok a => k a
  | Raise e => Raise e
  end.

Definition HTTP_204_NO_CONTENT : Z := 204.
Definition HTTP_400_BAD_REQUEST : Z := 400.
Definition HTTP_401_UNAUTHORIZED : Z := 401.
Definition HTTP_403_FORBIDDEN : Z := 403.
Definition HTTP_404_NOT_FOUND : Z := 404.

(** [list.remove(x)]: drops the first element equal to [x]; raises
    [ValueError] when there is none. *)
Fixpoint list_remove `{EqDecision A} (x : A) (l : list A) : option (list A) :=
  match l with
  | [] => None
  | y :: l' =>
      if decide (x = y) then Some l'
      else match list_remove x l' with
           | Some r => Some (y :: r)
           | None => None
           end
  end.

(** [s.startswith(p)] *)
Fixpoint startswith (p s : string) : bool :=
  match p, s with
  | EmptyString, _ => true
  | String _ _, EmptyString => false
  | String a p', String b s' => Ascii.eqb a b && startswith p' s'
  end.

(** [x in l]. *)
Definition list_in `{EqDecision A} (x : A) (l : list A) : bool :=
  bool_decide (x ∈ l).

(** [l.count(x)] *)
Definition list_count `{EqDecision A} (x : A) (l : list A) : nat :=
  length (filter (fun y => y = x) l).

(** [l.index(x)]: position of the first element equal to [x]. *)
Fixpoint list_index `{EqDecision A} (x : A) (l : list A) : option nat :=
  match l with
  | [] => None
  | y :: l' =>
      if decide (x = y) then Some 0%nat
      else option_map S (list_index x l')
  end.

(** [l.pop(i)] for an index [0 <= i]: the list without position [i];
    [IndexError] (here [None]) out of range. *)
Fixpoint list_pop {A} (i : nat) (l : list A) : option (list A) :=
  match l, i with
  | [], _ => None
  | _ :: l', O => Some l'
  | y :: l', S i' => option_map (cons y) (list_pop i' l')
  end.

(** [l[i]] with Python's negative indices counting from the end. *)
Definition list_getitem {A} (l : list A) (i : Z) : option A :=
  let n := Z.of_nat (length l) in
  if (0 <=? i) && (i <? n) then l !! Z.to_nat i
  else if (- n <=? i) && (i <? 0) then l !! Z.to_nat (n + i)
  else None.

End Py.
Import Py.

(** ** database/models.py, database/schemas.py *)

Module Models.

Record Role : Type := { role_title : string }.

(** [models.User]; [user_role] is the [role] backref that
    [schemas.User] requires to be present. *)
Record User : Type := {
  user_id : Z;
  user_username : string;
  user_email : string;
  user_password : string;
  user_role : Role
}.

#[global] Instance Role_eq_dec : EqDecision Role.
Proof. solve_decision. Defined.
#[global] Instance User_eq_dec : EqDecision User.
Proof. solve_decision. Defined.

(** A field of an update schema whose default is [None]: left out of
    the request, sent as [null], or sent with a value.  The first two
    read alike, as [None]; only a field that was sent, with [null] or
    with a value, is among those [dict(exclude_unset=True)] returns. *)
Inductive sent (A : Type) : Type :=
| Absent
| Null
| Given (a : A).
Arguments Absent {A}.
Arguments Null {A}.
Arguments Given {A} a.

(** The attribute, as the code reads it. *)
Definition value_of {A} (f : sent A) : option A :=
  match f with
  | Given a => Some a
  | Absent | Null => None
  end.

Definition is_null {A} (f : sent A) : bool :=
  match f with
  | Null => true
  | Absent | Given _ => false
  end.

(** A keyword argument handed to the constructor of a schema: the field
    is set, whatever the value. *)
Definition passed {A} (o : option A) : sent A :=
  match o with
  | Some a => Given a
  | None => Null
  end.

(** [schemas.UserUpdate]. *)
Record UserUpdate : Type := {
  uu_email : sent string;
  uu_password : sent string;
  uu_profile_image : sent string
}.

(** [schemas.CommentUpdate]. *)
Record CommentUpdate : Type := {
  cu_content : sent string;
  cu_is_answer : sent bool
}.

(** [models.Comment].  [comment_author_id] is what the handlers read
    as [comment.author.id], [comment_question_author_id] what they read
    as [comment.question.author.id]: the ids reached through the
    [author] and [question] relationships of the row. *)
Record Comment : Type := {
  comment_id : Z;
  comment_content : string;
  comment_is_answer : bool;
  comment_author_id : Z;
  comment_question_id : Z;
  comment_question_author_id : Z
}.

(** [schemas.ArticleRatingType]; the member order is the declaration
    order of the enum. *)
Inductive ArticleRatingType : Type := likes | dislikes.

#[global] Instance ArticleRatingType_eq_dec : EqDecision ArticleRatingType.
Proof. solve_decision. Defined.

Definition ArticleRatingType_member_names : list ArticleRatingType :=
  [likes; dislikes].

(** [models.Article] with its two many-to-many relationships, held as
    the lists of user ids the ORM collections contain. *)
Record Article : Type := {
  article_id : Z;
  article_likes : list Z;
  article_dislikes : list Z
}.

(** The tables a session sees. *)
Record Db : Type := {
  db_users : gmap Z User;
  db_comments : gmap Z Comment;
  db_articles : gmap Z Article
}.

End Models.
Import Models.

(** ** security/hashing.py *)

Module Hashing.

(** [pwd_context = CryptContext(schemes=["bcrypt"], deprecated="auto")].
    passlib is outside the repository, so the context is a parameter:
    [pwd_context_verify secret hash] is what [pwd_context.verify]
    returns or raises, [pwd_context_hash salt secret] what
    [pwd_context.hash] returns when the library draws [salt].  Nothing
    is assumed of either; what a statement needs of the library it
    states. *)
Record Bcrypt : Type := {
  pwd_context_verify : string -> string -> result bool;
  pwd_context_hash : string -> string -> string
}.

Definition verify_password (B : Bcrypt) (plain_password hashed_password : string)
  : result bool :=
  pwd_context_verify B plain_password hashed_password.

Definition get_password_hash (B : Bcrypt) (salt password : string) : string :=
  pwd_context_hash B salt password.

(** A stand-in for the library, for running the code on concrete
    strings.  A hash is a seven-character prefix with identifier and
    cost, a salt of 22 characters and a checksum of 31; the checksum
    stands for the digest.  A string that does not start with one of
    the identifiers, or has not the length of a hash, is refused with
    [reference_refusal]; which exception the library itself raises
    there is not part of the stand-in. *)
Definition reference_ident_values : list string :=
  ["$2$"; "$2a$"; "$2x$"; "$2y$"; "$2b$"].

Definition reference_refusal : exn := PyValueError "not a hash".

Definition reference_checksum (config secret : string) : string :=
  substring 0 31 (secret ++ config ++ "...............................")%string.

Definition reference_verify (secret hash : string) : result bool :=
  if existsb (fun ident => startswith ident hash) reference_ident_values then
    if (String.length hash =? 60)%nat
    then Ok (String.eqb (reference_checksum (substring 0 29 hash) secret)
                        (substring 29 31 hash))
    else Raise reference_refusal
  else Raise reference_refusal.

Definition reference_hash (salt secret : string) : string :=
  let config := ("$2b$12$" ++ substring 0 22 salt)%string in
  (config ++ reference_checksum config secret)%string.

Definition reference_bcrypt : Bcrypt :=
  {| pwd_context_verify := reference_verify; pwd_context_hash := reference_hash |}.

End Hashing.

(** ** database/crud.py *)

Module Crud.

Definition does_not_exist (cls : string) : exn :=
  HTTPException HTTP_404_NOT_FOUND (cls ++ " with this id does not exist.")%string [].

Definition get_object {A} (cls : string) (table : gmap Z A) (object_id : Z)
  : result A :=
  match table !! object_id with
  | Some db_object => Ok db_object
  | None => Raise (does_not_exist cls)
  end.

(** [db.query(cls).filter(expression).first()] over the user table,
    read in primary-key order. *)
Definition first_user (expression : User -> bool) (db : Db) : option User :=
  head (filter (fun u => expression u = true) (snd <$> map_to_list (db_users db))).

Definition set_users (db : Db) (t : gmap Z User) : Db :=
  {| db_users := t;
     db_comments := db_comments db; db_articles := db_articles db |}.

Definition set_comments (db : Db) (t : gmap Z Comment) : Db :=
  {| db_users := db_users db;
     db_comments := t; db_articles := db_articles db |}.

Definition set_articles (db : Db) (t : gmap Z Article) : Db :=
  {| db_users := db_users db;
     db_comments := db_comments db; db_articles := t |}.

(** [delete_object(cls=models.User, ...)]: the row goes, and with it
    what the relationships cascade to: the comments written by the
    user or under the user's questions, and the user's rows in the two
    rating tables. *)
Definition delete_user_row (db : Db) (uid : Z) : Db :=
  let comments :=
    filter (fun kv => comment_author_id (snd kv) ≠ uid
                      ∧ comment_question_author_id (snd kv) ≠ uid)
           (db_comments db) in
  let unrate (a : Article) :=
    {| article_id := article_id a;
       article_likes := filter (fun v => v ≠ uid) (article_likes a);
       article_dislikes := filter (fun v => v ≠ uid) (article_dislikes a) |} in
  {| db_users := delete uid (db_users db);
     db_comments := comments;
     db_articles := unrate <$> db_articles db |}.

Definition delete_user_object (db : Db) (object_id : Z) : result unit * Db :=
  match get_object "User" (db_users db) object_id with
  | Ok _ => (Ok tt, delete_user_row db object_id)
  | Raise e => (Raise e, db)
  end.

(** [update_object(cls=models.Comment, ...)]: the fields that were
    sent overwrite the stored ones.  Both columns are declared
    [nullable=False]: the UPDATE that carries a [null] is refused by the
    database, and the call ends in [IntegrityError] before its commit. *)
Definition update_comment_object (db : Db) (object_id : Z)
           (schema_object : CommentUpdate) : result Comment * Db :=
  match get_object "Comment" (db_comments db) object_id with
  | Ok c =>
      if is_null (cu_content schema_object) || is_null (cu_is_answer schema_object)
      then (Raise IntegrityError, db)
      else
        let c' :=
          {| comment_id := comment_id c;
             comment_content :=
               default (comment_content c) (value_of (cu_content schema_object));
             comment_is_answer :=
               default (comment_is_answer c) (value_of (cu_is_answer schema_object));
             comment_author_id := comment_author_id c;
             comment_question_id := comment_question_id c;
             comment_question_author_id := comment_question_author_id c |} in
        (Ok c', set_comments db (<[object_id := c']> (db_comments db)))
  | Raise e => (Raise e, db)
  end.

Definition email_exists : exn :=
  HTTPException HTTP_403_FORBIDDEN "User with this email already exists." [].

(** Python truth value of an optional string: [None] and the empty
    string are false. *)
Definition str_truthy (s : option string) : bool :=
  match s with
  | Some s => negb (String.eqb s "")
  | None => false
  end.

(** [update_user]; [hash] stands for [hashing.get_password_hash] at
    the salt drawn for this call.  The profile image is not part of
    the modelled row, but a [null] sent for it is refused by the
    database as one sent for the email or the password is: the three
    columns are declared [nullable=False]. *)
Definition update_user (hash : string -> string) (db : Db) (uid : Z)
           (user : UserUpdate) : result User * Db :=
  match get_object "User" (db_users db) uid with
  | Raise e => (Raise e, db)
  | Ok db_user =>
      let taken :=
        match value_of (uu_email user) with
        | Some e =>
            str_truthy (Some e) &&
            match first_user (fun u => String.eqb (user_email u) e) db with
            | Some u => negb (user_id u =? uid)
            | None => false
            end
        | None => false
        end in
      if taken then (Raise email_exists, db)
      else
        let password :=
          match value_of (uu_password user) with
          | Some p => if str_truthy (Some p) then Some (hash p) else Some p
          | None => None
          end in
        if is_null (uu_email user) || is_null (uu_password user)
           || is_null (uu_profile_image user)
        then (Raise IntegrityError, db)
        else
          let updated :=
            {| user_id := user_id db_user;
               user_username := user_username db_user;
               user_email := default (user_email db_user) (value_of (uu_email user));
               user_password := default (user_password db_user) password;
               user_role := user_role db_user |} in
          (Ok updated, set_users db (<[uid := updated]> (db_users db)))
  end.

End Crud.

(** ** decorators.py *)

Module Decorators.

Definition not_an_admin : exn :=
  HTTPException HTTP_403_FORBIDDEN "You are not an admin." [].

Definition not_that_user : exn :=
  HTTPException HTTP_403_FORBIDDEN "You are not that user." [].

Section Wrappers.
(** [K] is the keyword-argument record of the decorated handler;
    [kw_current_user] and [kw_user_id] are [kwargs.get] at the two
    names the wrappers read ([None] when the handler has no such
    argument), [S] the state the handler works on. *)
Context {K S A : Type}.
Variable kw_current_user : K -> option User.
Variable kw_user_id : K -> option Z.
Variable func : K -> S -> result A * S.

Definition raise_403_if_not_admin (kwargs : K) (s : S) : result A * S :=
  match kw_current_user kwargs with
  | Some user =>
      if negb (String.eqb (role_title (user_role user)) "Admin")
      then (Raise not_an_admin, s)
      else func kwargs s
  | None => func kwargs s
  end.

Definition raise_403_if_no_access (kwargs : K) (s : S) : result A * S :=
  match kw_current_user kwargs with
  | Some user =>
      if negb (String.eqb (role_title (user_role user)) "Admin")
         && match kw_user_id kwargs with
            | Some target => negb (user_id user =? target)
            | None => true
            end
      then (Raise not_that_user, s)
      else func kwargs s
  | None => func kwargs s
  end.
End Wrappers.

End Decorators.

(** ** routers/users/users.py *)

Module Users.

Inductive Response : Type := Response_status (status_code : Z).

Record delete_user_kwargs : Type := {
  du_user_id : Z;
  du_current_user : User
}.

Record update_user_kwargs : Type := {
  upd_user_id : Z;
  upd_user : UserUpdate;
  upd_current_user : User
}.

Definition delete_user_body (kwargs : delete_user_kwargs) (db : Db)
  : result Response * Db :=
  match Crud.delete_user_object db (du_user_id kwargs) with
  | (Ok _, db') => (Ok (Response_status HTTP_204_NO_CONTENT), db')
  | (Raise e, db') => (Raise e, db')
  end.

Definition delete_user : delete_user_kwargs -> Db -> result Response * Db :=
  Decorators.raise_403_if_no_access
    (fun kw => Some (du_current_user kw)) (fun kw => Some (du_user_id kw))
    delete_user_body.

Definition update_user_body (hash : string -> string)
           (kwargs : update_user_kwargs) (db : Db) : result User * Db :=
  Crud.update_user hash db (upd_user_id kwargs) (upd_user kwargs).

Definition update_user (hash : string -> string)
  : update_user_kwargs -> Db -> result User * Db :=
  Decorators.raise_403_if_no_access
    (fun kw => Some (upd_current_user kw)) (fun kw => Some (upd_user_id kw))
    (update_user_body hash).

End Users.

(** ** routers/forum/comments.py *)

Module Comments.

(** What a call of the handler amounts to: the value it returns or the
    exception it raises.  [Returns_None] is the handler running off
    its end without a [return]. *)
Inductive outcome : Type :=
| Returns (c : Comment)
| Returns_None
| Raises (e : exn).

Definition of_result (r : result Comment * Db) : outcome * Db :=
  match r with
  | (Ok c, db) => (Returns c, db)
  | (Raise e, db) => (Raises e, db)
  end.

Definition update_comment (comment_id : Z) (comment : CommentUpdate) (db : Db)
           (current_user : User) : outcome * Db :=
  if String.eqb (role_title (user_role current_user)) "Admin" then
    of_result (Crud.update_comment_object db comment_id comment)
  else
    match Crud.get_object "Comment" (db_comments db) comment_id with
    | Raise e => (Raises e, db)
    | Ok comment_db =>
        if Crud.str_truthy (value_of (cu_content comment))
           && (user_id current_user =? comment_author_id comment_db)
        then
          of_result (Crud.update_comment_object db comment_id
                       {| cu_content := passed (value_of (cu_content comment));
                          cu_is_answer := Absent |})
        else if match value_of (cu_is_answer comment) with
                | Some _ => true
                | None => false
                end
                && (user_id current_user =? comment_question_author_id comment_db)
        then
          of_result (Crud.update_comment_object db comment_id
                       {| cu_content := Absent;
                          cu_is_answer := passed (value_of (cu_is_answer comment)) |})
        else (Returns_None, db)
    end.

End Comments.

(** ** services.py *)

Module Services.

(** Regular expressions over characters, with character classes as
    predicates, matched by derivatives.  [re.fullmatch] succeeds
    exactly when the whole string is in the language of the pattern;
    the anchors [^] and [$] add nothing under [fullmatch]. *)
Inductive regex : Type :=
| Void
| Eps
| Class (p : ascii -> bool)
| Cat (r1 r2 : regex)
| Alt (r1 r2 : regex)
| Star (r : regex).

Fixpoint nullable (r : regex) : bool :=
  match r with
  | Void => false
  | Eps => true
  | Class _ => false
  | Cat r1 r2 => nullable r1 && nullable r2
  | Alt r1 r2 => nullable r1 || nullable r2
  | Star _ => true
  end.

Fixpoint deriv (c : ascii) (r : regex) : regex :=
  match r with
  | Void => Void
  | Eps => Void
  | Class p => if p c then Eps else Void
  | Cat r1 r2 =>
      if nullable r1 then Alt (Cat (deriv c r1) r2) (deriv c r2)
      else Cat (deriv c r1) r2
  | Alt r1 r2 => Alt (deriv c r1) (deriv c r2)
  | Star r1 => Cat (deriv c r1) (Star r1)
  end.

Fixpoint fullmatch (r : regex) (s : string) : bool :=
  match s with
  | EmptyString => nullable r
  | String c s' => fullmatch (deriv c r) s'
  end.

(** [r+] and [r{2,}]. *)
Definition Plus (r : regex) : regex := Cat r (Star r).
Definition AtLeast2 (r : regex) : regex := Cat r (Cat r (Star r)).

(** A range [lo-hi] of a character class, by character code. *)
Definition range (lo hi : ascii) (c : ascii) : bool :=
  ((nat_of_ascii lo <=? nat_of_ascii c)%nat
   && (nat_of_ascii c <=? nat_of_ascii hi)%nat)%bool.

Definition lit (a : ascii) (c : ascii) : bool := Ascii.eqb a c.

(** [[A-Za-z0-9]] *)
Definition alnum (c : ascii) : bool :=
  range "A" "Z" c || range "a" "z" c || range "0" "9" c.

(** [[.-_]]: inside a class this is the range from [.] to [_]. *)
Definition dot_to_underscore (c : ascii) : bool := range "." "_" c.

(** [[A-Za-z0-9-]] *)
Definition alnum_hyphen (c : ascii) : bool := alnum c || lit "-" c.

(** [[A-Z|a-z]]: the bar is a member of the class. *)
Definition upper_bar_lower (c : ascii) : bool :=
  range "A" "Z" c || lit "|" c || range "a" "z" c.

(** [^([A-Za-z0-9]+[.-_])*[A-Za-z0-9]+@[A-Za-z0-9-]+(\.[A-Z|a-z]{2,})+$] *)
Definition email_pattern : regex :=
  Cat (Star (Cat (Plus (Class alnum)) (Class dot_to_underscore)))
    (Cat (Plus (Class alnum))
       (Cat (Class (lit "@"))
          (Cat (Plus (Class alnum_hyphen))
             (Plus (Cat (Class (lit ".")) (AtLeast2 (Class upper_bar_lower))))))).

(** The truth value of the match object [isemail] returns. *)
Definition isemail (email : string) : bool := fullmatch email_pattern email.

(** The two filter expressions the lookup can send to the database. *)
Inductive expression : Type :=
| User_email_eq (s : string)
| User_username_eq (s : string).

Definition eval_expression (e : expression) (u : User) : bool :=
  match e with
  | User_email_eq s => String.eqb (user_email u) s
  | User_username_eq s => String.eqb (user_username u) s
  end.

(** [crud.get_object_by_expression(cls=models.User, ...)] with
    [raise_404] left at [False]. *)
Definition get_object_by_expression (db : Db) (e : expression) : option User :=
  Crud.first_user (eval_expression e) db.

(** The lookup, together with the queries it issued, in order. *)
Definition get_user_by_username_or_email_traced (db : Db) (username : string)
  : option User * list expression :=
  if isemail username
  then (get_object_by_expression db (User_email_eq username),
        [User_email_eq username])
  else (get_object_by_expression db (User_username_eq username),
        [User_username_eq username]).

Definition get_user_by_username_or_email (db : Db) (username : string)
  : option User :=
  fst (get_user_by_username_or_email_traced db username).

End Services.

(** ** security/security_token.py *)

Module SecurityToken.

(** The claims the code puts into and reads from a token. *)
Record claims : Type := {
  claim_sub : option string;
  claim_exp : option Z
}.

(** The subclasses of [JWTError] that [jwt.decode] raises. *)
Inductive jwt_error : Type :=
| JWTError_signature
| ExpiredSignatureError
| JWTClaimsError.

(** python-jose is outside the repository; its two entry points are
    taken as a parameter.  [jwt_encode claims key algorithm] is the
    token string; [jwt_decode token key algorithms now] is the payload
    or the error raised, [now] being the clock the library reads, in
    seconds. *)
Record Jose : Type := {
  jwt_encode : claims -> string -> string -> string;
  jwt_decode : string -> string -> list string -> Z -> jwt_error + claims
}.

Definition ALGORITHM : string := "HS256".
Definition ACCESS_TOKEN_EXPIRE_MINUTES : Z := 60.

(** [timedelta(minutes=m)] in seconds. *)
Definition minutes (m : Z) : Z := 60 * m.

(** A [timedelta] is true unless it is the zero duration. *)
Definition timedelta_truthy (d : Z) : bool := negb (d =? 0).

(** [create_access_token]; [data] carries the [sub] entry, [now] is
    [datetime.utcnow()], [SECRET_KEY] the key of the process. *)
Definition create_access_token (J : Jose) (SECRET_KEY : string)
           (data : claims) (expires_delta : option Z) (now : Z) : string :=
  let expire :=
    match expires_delta with
    | Some d => if timedelta_truthy d then now + d else now + minutes 15
    | None => now + minutes 15
    end in
  let to_encode := {| claim_sub := claim_sub data; claim_exp := Some expire |} in
  jwt_encode J to_encode SECRET_KEY ALGORITHM.

(** A reference instance of the library, for running the code on
    concrete tokens: a token is the text
    [algorithm.subject.expiry.key], the subject being empty for a
    payload without [sub]; decoding checks the algorithm, the key and
    the expiry, in the order the library does. *)
Fixpoint split_dot (acc : string) (s : string) : list string :=
  match s with
  | EmptyString => [acc]
  | String c s' =>
      if Ascii.eqb c "." then acc :: split_dot EmptyString s'
      else split_dot (acc ++ String c EmptyString)%string s'
  end.

Fixpoint digits_value (acc : Z) (s : string) : option Z :=
  match s with
  | EmptyString => Some acc
  | String c s' =>
      let d := Z.of_nat (nat_of_ascii c) - 48 in
      if (0 <=? d) && (d <=? 9) then digits_value (10 * acc + d) s' else None
  end.

Definition digit_char (d : Z) : ascii := ascii_of_nat (Z.to_nat (48 + d)).

Fixpoint digits_of (fuel : nat) (n : Z) (acc : string) : string :=
  match fuel with
  | O => acc
  | S fuel' =>
      let acc' := String (digit_char (n mod 10)) acc in
      if n / 10 =? 0 then acc' else digits_of fuel' (n / 10) acc'
  end.

Definition reference_encode (c : claims) (key alg : string) : string :=
  (alg ++ "." ++ default "" (claim_sub c) ++ "."
       ++ digits_of 20 (default 0 (claim_exp c)) "" ++ "." ++ key)%string.

Definition reference_decode (token key : string) (algorithms : list string)
           (now : Z) : jwt_error + claims :=
  match split_dot "" token with
  | [alg; sub; exp; k] =>
      if negb (bool_decide (alg ∈ algorithms)) then inl JWTError_signature
      else if negb (String.eqb k key) then inl JWTError_signature
      else match digits_value 0 exp with
           | None => inl JWTClaimsError
           | Some e =>
               if e <? now then inl ExpiredSignatureError
               else inr {| claim_sub := if String.eqb sub "" then None else Some sub;
                           claim_exp := Some e |}
           end
  | _ => inl JWTError_signature
  end.

Definition reference_jose : Jose :=
  {| jwt_encode := reference_encode; jwt_decode := reference_decode |}.

End SecurityToken.

(** ** dependencies.py *)

Module Dependencies.
Import SecurityToken.

Definition credentials_exception : exn :=
  HTTPException HTTP_401_UNAUTHORIZED "Could not validate credentials"
                [("WWW-Authenticate", "Bearer")].

Definition get_user (J : Jose) (SECRET_KEY : string) (now : Z)
           (user_token : string) (db : Db) : result User :=
  match jwt_decode J user_token SECRET_KEY [ALGORITHM] now with
  | inl _ => Raise credentials_exception
  | inr payload =>
      match claim_sub payload with
      | None => Raise credentials_exception
      | Some username =>
          match Services.get_user_by_username_or_email db username with
          | None => Raise credentials_exception
          | Some user => Ok user
          end
      end
  end.

Definition get_current_user (J : Jose) (SECRET_KEY : string) (now : Z)
           (user_token : string) (db : Db) : result User :=
  get_user J SECRET_KEY now user_token db.

(** [s.replace(old, '')] for a non-empty [old]: the occurrences of
    [old] are found from the left, each search resuming after the
    previous occurrence, and are dropped.  [skip] counts the
    characters of the current occurrence still to be dropped. *)
Fixpoint remove_from (old : string) (skip : nat) (s : string) : string :=
  match s with
  | EmptyString => EmptyString
  | String c s' =>
      match skip with
      | S k => remove_from old k s'
      | O =>
          if startswith old s
          then remove_from old (String.length old - 1)%nat s'
          else String c (remove_from old O s')
      end
  end.

Definition str_remove (old s : string) : string := remove_from old O s.

Definition get_token_in_query (token : string) : string :=
  str_remove "Bearer " token.

Definition get_current_user_by_query (J : Jose) (SECRET_KEY : string) (now : Z)
           (token : string) (db : Db) : result User :=
  get_user J SECRET_KEY now (get_token_in_query token) db.

End Dependencies.

(** ** routers/chat/socket_manager.py *)

Module SocketManager.

(** A websocket object, known by its identity. *)
Definition WebSocket : Type := nat.

(** JSON values as they travel over a connection. *)
#[warnings="-register-all"]
Inductive json : Type :=
| JNull
| JBool (b : bool)
| JNum (n : Z)
| JStr (s : string)
| JArr (items : list json)
| JObj (members : list (string * json)).

(** What the websockets are asked to do, in order. *)
Inductive wire : Type :=
| Accept (ws : WebSocket)
| Send_json (ws : WebSocket) (data : json).

(** The manager's list together with the traffic produced so far. *)
Record state : Type := {
  active_connections : list (WebSocket * User);
  traffic : list wire
}.

Definition init : state := {| active_connections := []; traffic := [] |}.

Definition connect (websocket : WebSocket) (user : User) (self : state) : state :=
  {| active_connections := active_connections self ++ [(websocket, user)];
     traffic := traffic self ++ [Accept websocket] |}.

(** [None] is the [ValueError] of [list.remove]. *)
Definition disconnect (websocket : WebSocket) (user : User) (self : state)
  : option state :=
  match list_remove (websocket, user) (active_connections self) with
  | Some l => Some {| active_connections := l; traffic := traffic self |}
  | None => None
  end.

(** The messages one [send] puts on the wire. *)
Definition deliveries (data : json) (conns : list (WebSocket * User)) : list wire :=
  map (fun c => Send_json (fst c) data) conns.

(** [send] is taken as one step: no connect or disconnect of another
    connection falls between its writes. *)
Definition send (data : json) (self : state) : state :=
  {| active_connections := active_connections self;
     traffic := traffic self ++ deliveries data (active_connections self) |}.

End SocketManager.

(** ** routers/chat/chat.py *)

Module Chat.
Import SocketManager.

(** [d[key] = value] on a dict that is kept as its list of items: an
    existing key keeps its place, a new one goes last. *)
Fixpoint dict_setitem (key : string) (value : json) (d : list (string * json))
  : list (string * json) :=
  match d with
  | [] => [(key, value)]
  | (k, v) :: d' =>
      if String.eqb k key then (k, value) :: d'
      else (k, v) :: dict_setitem key value d'
  end.

Definition response (current_user : User) : list (string * json) :=
  [("user", JStr (user_username current_user));
   ("message", JStr "connected to the chat");
   ("connection", JBool true)].

(** The handler up to its receive loop. *)
Definition chat_connected (websocket : WebSocket) (current_user : User)
           (m : state) : state :=
  send (JObj (response current_user)) (connect websocket current_user m).

(** One turn of the loop: a frame came in. *)
Definition chat_received (data : json) (m : state) : state := send data m.

(** The [except WebSocketDisconnect] branch. *)
Definition chat_disconnected (websocket : WebSocket) (current_user : User)
           (m : state) : option state :=
  match disconnect websocket current_user m with
  | Some m' =>
      Some (send (JObj (dict_setitem "message" (JStr "left the chat")
                          (response current_user))) m')
  | None => None
  end.

(** What happens on the server, seen from the shared manager: a client
    opens a connection with a token in its query, a frame arrives on an
    open connection, or an open connection is found closed.  The
    handler of a connection keeps [current_user] in a local variable. *)
Inductive event : Type :=
| Open (websocket : WebSocket) (token : string)
| Frame (websocket : WebSocket) (data : json)
| Closed (websocket : WebSocket) (current_user : User).

Section Endpoint.
Variable J : SecurityToken.Jose.
Variable SECRET_KEY : string.
Variable now : Z.
Variable db : Db.

(** The endpoint at connection time: the dependency resolves the
    user first, and the handler body runs only if it returns. *)
Definition chat_open (websocket : WebSocket) (token : string) (m : state)
  : state :=
  match Dependencies.get_current_user_by_query J SECRET_KEY now token db with
  | Ok current_user => chat_connected websocket current_user m
  | Raise _ => m
  end.

Definition step (e : event) (m : state) : option state :=
  match e with
  | Open ws token => Some (chat_open ws token m)
  | Frame ws data => Some (chat_received data m)
  | Closed ws current_user => chat_disconnected ws current_user m
  end.

Fixpoint run (es : list event) (m : state) : option state :=
  match es with
  | [] => Some m
  | e :: es' =>
      match step e m with
      | Some m' => run es' m'
      | None => None
      end
  end.
End Endpoint.

(** The registry alone: connects and disconnects in some order. *)
Inductive op : Type :=
| Connect (websocket : WebSocket) (user : User)
| Disconnect (websocket : WebSocket) (user : User).

#[global] Instance op_eq_dec : EqDecision op.
Proof. unfold WebSocket. solve_decision. Defined.

Definition apply_op (o : op) (m : state) : option state :=
  match o with
  | Connect ws user => Some (connect ws user m)
  | Disconnect ws user => disconnect ws user m
  end.

Fixpoint apply_ops (ops : list op) (m : state) : option state :=
  match ops with
  | [] => Some m
  | o :: ops' =>
      match apply_op o m with
      | Some m' => apply_ops ops' m'
      | None => None
      end
  end.

Definition is_connect (o : op) : bool :=
  match o with Connect _ _ => true | Disconnect _ _ => false end.

Definition connects_of (c : WebSocket * User) (ops : list op) : nat :=
  list_count (Connect (fst c) (snd c)) ops.

Definition disconnects_of (c : WebSocket * User) (ops : list op) : nat :=
  list_count (Disconnect (fst c) (snd c)) ops.

(** Every disconnect is matched by an earlier connect of the same
    pair that no earlier disconnect has used up. *)
Definition well_matched (ops : list op) : Prop :=
  forall (pre post : list op) (c : WebSocket * User),
    ops = pre ++ post ->
    (disconnects_of c pre <= connects_of c pre)%nat.

End Chat.

(** ** database/crud.py: article ratings *)

Module Articles.

(** [getattr(article_db, rating_type)] and the matching [setattr]. *)
Definition getattr (a : Article) (name : ArticleRatingType) : list Z :=
  match name with
  | likes => article_likes a
  | dislikes => article_dislikes a
  end.

Definition setattr (a : Article) (name : ArticleRatingType) (l : list Z) : Article :=
  match name with
  | likes => {| article_id := article_id a; article_likes := l;
                article_dislikes := article_dislikes a |}
  | dislikes => {| article_id := article_id a; article_likes := article_likes a;
                   article_dislikes := l |}
  end.

Definition index_error : exn := PyValueError "index out of range".
Definition not_in_list : exn := PyValueError "x is not in list".

(** [l.pop(l.index(x))] *)
Definition pop_index (x : Z) (l : list Z) : result (list Z) :=
  match list_index x l with
  | None => Raise not_in_list
  | Some i =>
      match list_pop i l with
      | Some l' => Ok l'
      | None => Raise index_error
      end
  end.

(** [names[names.index(rating_type) - 1]] *)
Definition other_name (rating_type : ArticleRatingType) : result ArticleRatingType :=
  let names := ArticleRatingType_member_names in
  match list_index rating_type names with
  | None => Raise not_in_list
  | Some i =>
      match list_getitem names (Z.of_nat i - 1) with
      | Some name => Ok name
      | None => Raise index_error
      end
  end.

(** The part of [update_article_rating] that works on the loaded
    article; [uid] identifies [user_db], the row fetched under the
    primary key [user.id]. *)
Definition rate (article_db : Article) (uid : Z) (rating_type : ArticleRatingType)
  : result Article :=
  let data_main := getattr article_db rating_type in
  if list_in uid data_main then
    bind (pop_index uid data_main) (fun data_main =>
    Ok (setattr article_db rating_type data_main))
  else
    let data_main := data_main ++ [uid] in
    let article_db := setattr article_db rating_type data_main in
    bind (other_name rating_type) (fun secondary =>
    let data_secondary := getattr article_db secondary in
    if list_in uid data_secondary then
      bind (pop_index uid data_secondary) (fun data_secondary =>
      Ok (setattr article_db secondary data_secondary))
    else Ok article_db).

Definition update_article_rating (db : Db) (article_id : Z) (user : User)
           (rating_type : ArticleRatingType) : result Article * Db :=
  match Crud.get_object "Article" (db_articles db) article_id with
  | Raise e => (Raise e, db)
  | Ok article_db =>
      match Crud.get_object "User" (db_users db) (user_id user) with
      | Raise e => (Raise e, db)
      | Ok user_db =>
          match rate article_db (user_id user) rating_type with
          | Raise e => (Raise e, db)
          | Ok article_db' =>
              (Ok article_db',
               Crud.set_articles db (<[article_id := article_db']> (db_articles db)))
          end
      end
  end.

End Articles.

(** ** security/oauth2.py, security/router.py *)

Module Login.

(** [authenticate_user]: [None] is the value [False] the function
    returns for an unknown name or a wrong password. *)
Definition authenticate_user (B : Hashing.Bcrypt) (db : Db)
           (username password : string) : result (option User) :=
  match Services.get_user_by_username_or_email db username with
  | None => Ok None
  | Some user =>
      match Hashing.verify_password B password (user_password user) with
      | Raise e => Raise e
      | Ok false => Ok None
      | Ok true => Ok (Some user)
      end
  end.

(** The body the token endpoint answers with. *)
Record Token : Type := {
  access_token : string;
  token_type : string
}.

Definition incorrect_credentials : exn :=
  HTTPException HTTP_401_UNAUTHORIZED "Incorrect username or password"
                [("WWW-Authenticate", "Bearer")].

(** [login_for_access_token]; [username] and [password] are the two
    fields of the form, [now] the clock at the time of the call. *)
Definition login_for_access_token (J : SecurityToken.Jose) (SECRET_KEY : string)
           (B : Hashing.Bcrypt) (now : Z) (db : Db) (username password : string)
  : result Token :=
  match authenticate_user B db username password with
  | Raise e => Raise e
  | Ok None => Raise incorrect_credentials
  | Ok (Some user) =>
      let access_token_expires :=
        SecurityToken.minutes SecurityToken.ACCESS_TOKEN_EXPIRE_MINUTES in
      let access_token :=
        SecurityToken.create_access_token J SECRET_KEY
          {| SecurityToken.claim_sub := Some (user_username user);
             SecurityToken.claim_exp := None |}
          (Some access_token_expires) now in
      Ok {| access_token := access_token; token_type := "bearer" |}
  end.

End Login.

(** ** database/crud.py, routers/users/users.py: registration *)

Module Registration.

(** [schemas.UserCreate]. *)
Record UserCreate : Type := {
  uc_username : string;
  uc_email : string;
  uc_password : string;
  uc_role_id : Z
}.

Definition user_exists : exn :=
  HTTPException HTTP_403_FORBIDDEN
                "User with this username or email already exists." [].

(** [crud.create_user].  [roles] is the role table, [new_id] the
    primary key the database gives the new row, [hash] stands for
    [hashing.get_password_hash] at the salt drawn for this call. *)
Definition create_user (hash : string -> string) (roles : gmap Z Role)
           (new_id : Z) (db : Db) (user : UserCreate) : result User * Db :=
  match Crud.first_user
          (fun u => String.eqb (user_username u) (uc_username user)
                    || String.eqb (user_email u) (uc_email user)) db with
  | Some _ => (Raise user_exists, db)
  | None =>
      match Crud.get_object "Role" roles (uc_role_id user) with
      | Raise e => (Raise e, db)
      | Ok role =>
          let hashed_password := hash (uc_password user) in
          let db_user :=
            {| user_id := new_id;
               user_username := uc_username user;
               user_email := uc_email user;
               user_password := hashed_password;
               user_role := role |} in
          (Ok db_user, Crud.set_users db (<[new_id := db_user]> (db_users db)))
      end
  end.

End Registration.

(** ** routers/forum/comments.py: deleting a comment *)

Module CommentRoutes.

Definition not_author_of_comment : exn :=
  HTTPException HTTP_403_FORBIDDEN "You are not author of comment." [].

(** [crud.delete_object(cls=models.Comment, ...)]; no relationship
    hangs off a comment, so only its row goes. *)
Definition delete_comment_object (db : Db) (object_id : Z) : result unit * Db :=
  match Crud.get_object "Comment" (db_comments db) object_id with
  | Ok _ => (Ok tt, Crud.set_comments db (delete object_id (db_comments db)))
  | Raise e => (Raise e, db)
  end.

Definition delete_and_respond (db : Db) (comment_id : Z)
  : result Users.Response * Db :=
  match delete_comment_object db comment_id with
  | (Ok _, db') => (Ok (Users.Response_status HTTP_204_NO_CONTENT), db')
  | (Raise e, db') => (Raise e, db')
  end.

(** The handler of [DELETE /comments/{comment_id}/], which the source
    names [delete_question]. *)
Definition delete_question (comment_id : Z) (db : Db) (current_user : User)
  : result Users.Response * Db :=
  if String.eqb (role_title (user_role current_user)) "Admin" then
    delete_and_respond db comment_id
  else
    match Crud.get_object "Comment" (db_comments db) comment_id with
    | Raise e => (Raise e, db)
    | Ok comment_db =>
        if user_id current_user =? comment_author_id comment_db
        then delete_and_respond db comment_id
        else (Raise not_author_of_comment, db)
    end.

End CommentRoutes.

(** ** routers/news/articles.py: deleting an article *)

Module ArticleRoutes.

Record delete_article_kwargs : Type := {
  da_article_id : Z;
  da_current_user : User
}.

(** [crud.delete_object(cls=models.Article, ...)]; the rows of the two
    rating tables go with the article, they are part of its record
    here. *)
Definition delete_article_object (db : Db) (object_id : Z) : result unit * Db :=
  match Crud.get_object "Article" (db_articles db) object_id with
  | Ok _ => (Ok tt, Crud.set_articles db (delete object_id (db_articles db)))
  | Raise e => (Raise e, db)
  end.

Definition delete_article_body (kwargs : delete_article_kwargs) (db : Db)
  : result Users.Response * Db :=
  match delete_article_object db (da_article_id kwargs) with
  | (Ok _, db') => (Ok (Users.Response_status HTTP_204_NO_CONTENT), db')
  | (Raise e, db') => (Raise e, db')
  end.

Definition delete_article
  : delete_article_kwargs -> Db -> result Users.Response * Db :=
  Decorators.raise_403_if_not_admin
    (fun kw => Some (da_current_user kw)) delete_article_body.

End ArticleRoutes.

(** ** routers/forum/comments.py, database/crud.py: writing a comment *)

Module Forum.

Record Question : Type := {
  question_id : Z;
  question_title : string;
  question_author_id : Z
}.

Record Notification : Type := {
  notification_id : Z;
  notification_title : string;
  notification_user_id : Z;
  notification_question_id : Z
}.

(** [schemas.CommentCreate]. *)
Record CommentCreate : Type := {
  cc_content : string;
  cc_question_id : Z;
  cc_author_id : option Z
}.

(** The tables of the forum next to those of [Db]. *)
Record Tables : Type := {
  forum_db : Db;
  forum_questions : gmap Z Question;
  forum_notifications : gmap Z Notification
}.

(** What can leave the functions below: an exception of [exn], or the
    [AttributeError] of following a relationship that is [None]. *)
Inductive raised : Type :=
| Raised (e : exn)
| AttributeError.

Definition double_quote : string := String (ascii_of_nat 34) EmptyString.

(** The title [crud.create_comment] formats for the notification. *)
Definition notification_title_for (username title : string) : string :=
  ("User " ++ username ++ " commented your question: "
   ++ double_quote ++ title ++ double_quote ++ ".")%string.

Definition add_comment (t : Tables) (c : Comment) : Tables :=
  {| forum_db := Crud.set_comments (forum_db t)
                   (<[comment_id c := c]> (db_comments (forum_db t)));
     forum_questions := forum_questions t;
     forum_notifications := forum_notifications t |}.

Definition add_notification (t : Tables) (n : Notification) : Tables :=
  {| forum_db := forum_db t;
     forum_questions := forum_questions t;
     forum_notifications := <[notification_id n := n]> (forum_notifications t) |}.

(** [crud.create_notification]; [new_id] is the key the database gives
    the row. *)
Definition create_notification (new_id : Z) (t : Tables)
           (title : string) (uid qid : Z) : (raised + Notification) * Tables :=
  match Crud.get_object "User" (db_users (forum_db t)) uid with
  | Raise e => (inl (Raised e), t)
  | Ok _ =>
      match Crud.get_object "Question" (forum_questions t) qid with
      | Raise e => (inl (Raised e), t)
      | Ok _ =>
          let notification_db :=
            {| notification_id := new_id; notification_title := title;
               notification_user_id := uid; notification_question_id := qid |} in
          (inr notification_db, add_notification t notification_db)
      end
  end.

(** [crud.create_comment].  The comment is committed before the
    notification is attempted.  [comment_db.question.author] is the user
    row the question points to; the handler reads its [id], which fails
    when there is no such row. *)
Definition crud_create_comment (new_comment_id new_notification_id : Z)
           (t : Tables) (content : string) (author_id question_id : Z)
  : (raised + Comment) * Tables :=
  match Crud.get_object "User" (db_users (forum_db t)) author_id with
  | Raise e => (inl (Raised e), t)
  | Ok author =>
      match Crud.get_object "Question" (forum_questions t) question_id with
      | Raise e => (inl (Raised e), t)
      | Ok question =>
          let comment_db :=
            {| comment_id := new_comment_id;
               comment_content := content;
               comment_is_answer := false;
               comment_author_id := author_id;
               comment_question_id := question_id;
               comment_question_author_id := question_author_id question |} in
          let t1 := add_comment t comment_db in
          match db_users (forum_db t) !! question_author_id question with
          | None => (inl AttributeError, t1)
          | Some question_author =>
              if negb (author_id =? question_author_id question) then
                match create_notification new_notification_id t1
                        (notification_title_for (user_username author)
                           (question_title question))
                        (question_author_id question) question_id with
                | (inl e, t2) => (inl e, t2)
                | (inr _, t2) => (inr comment_db, t2)
                end
              else (inr comment_db, t1)
          end
      end
  end.

(** The handler [create_comment]: the author of the request is
    overwritten with the caller before the comment is made. *)
Definition create_comment (new_comment_id new_notification_id : Z)
           (comment : CommentCreate) (t : Tables) (current_user : User)
  : (raised + Comment) * Tables :=
  let comment :=
    {| cc_content := cc_content comment;
       cc_question_id := cc_question_id comment;
       cc_author_id := Some (user_id current_user) |} in
  match cc_author_id comment with
  | Some author_id =>
      crud_create_comment new_comment_id new_notification_id t
        (cc_content comment) author_id (cc_question_id comment)
  | None => (inl (Raised (Crud.does_not_exist "User")), t)
  end.

End Forum.

(** ** Vocabulary of the statements *)

Module Policy.

Definition is_admin (actor : User) : Prop :=
  role_title (user_role actor) = "Admin".

(** Admin-or-owner, as the policy is worded. *)
Definition admin_or_owner (actor : User) (owner_id : Z) : Prop :=
  is_admin actor \/ user_id actor = owner_id.

(** A handler body that counts how often it is entered. *)
Definition counted {K St A} (func : K -> St -> result A * St)
  : K -> St * nat -> result A * (St * nat) :=
  fun kwargs sn =>
    let (r, s') := func kwargs (fst sn) in (r, (s', S (snd sn))).

Definition entered {St A} (r : result A * (St * nat)) : nat := snd (snd r).

(** *** The comment-edit decision table *)

Inductive field : Type := Content | Is_answer.

Definition stored (f : field) (c : Comment) : string + bool :=
  match f with
  | Content => inl (comment_content c)
  | Is_answer => inr (comment_is_answer c)
  end.

Definition requested (f : field) (req : CommentUpdate) : option (string + bool) :=
  match f with
  | Content => inl <$> value_of (cu_content req)
  | Is_answer => inr <$> value_of (cu_is_answer req)
  end.

(** The table: an Admin may change any field, the author of the
    comment its content, the author of the question the is-answer
    flag; everything else is denied. *)
Definition table_allows (actor : User) (c : Comment) (f : field) : Prop :=
  is_admin actor
  \/ match f with
     | Content => user_id actor = comment_author_id c
     | Is_answer => user_id actor = comment_question_author_id c
     end.

(** The handler decides a request as the table does: it ends in an
    answer (a comment or an exception), every requested field the
    table allows holds the requested value afterwards, and every field
    the table denies is as it was. *)
Definition decides_as_table (actor : User) (comment_id : Z)
           (req : CommentUpdate) (db : Db) : Prop :=
  forall c, db_comments db !! comment_id = Some c ->
    let r := Comments.update_comment comment_id req db actor in
    fst r <> Comments.Returns_None
    /\ forall f,
        (table_allows actor c f ->
         forall v, requested f req = Some v ->
           stored f <$> db_comments (snd r) !! comment_id = Some v)
        /\ (~ table_allows actor c f ->
            stored f <$> db_comments (snd r) !! comment_id = Some (stored f c)).

(** The two rules a non-admin can fall under, as the handler tests
    them. *)
Definition content_rule (actor : User) (c : Comment) (req : CommentUpdate) : Prop :=
  exists s, cu_content req = Given s /\ s <> ""
            /\ user_id actor = comment_author_id c.

Definition is_answer_rule (actor : User) (c : Comment) (req : CommentUpdate) : Prop :=
  exists b, cu_is_answer req = Given b
            /\ user_id actor = comment_question_author_id c.

(** A comment with one field replaced. *)
Definition with_content (c : Comment) (s : string) : Comment :=
  {| comment_id := comment_id c; comment_content := s;
     comment_is_answer := comment_is_answer c;
     comment_author_id := comment_author_id c;
     comment_question_id := comment_question_id c;
     comment_question_author_id := comment_question_author_id c |}.

Definition with_is_answer (c : Comment) (b : bool) : Comment :=
  {| comment_id := comment_id c; comment_content := comment_content c;
     comment_is_answer := b;
     comment_author_id := comment_author_id c;
     comment_question_id := comment_question_id c;
     comment_question_author_id := comment_question_author_id c |}.

Definition store_comment (db : Db) (comment_id : Z) (c : Comment) : Db :=
  Crud.set_comments db (<[comment_id := c]> (db_comments db)).

(** Sample rows. *)
Definition role_user : Role := {| role_title := "User" |}.
Definition role_admin : Role := {| role_title := "Admin" |}.

Definition mk_user (id : Z) (name : string) (r : Role) : User :=
  {| user_id := id; user_username := name;
     user_email := (name ++ "@observers.com")%string;
     user_password := "$2b$12$"; user_role := r |}.

Definition alice : User := mk_user 1 "alice" role_user.
Definition bob : User := mk_user 2 "bob" role_user.
Definition carol : User := mk_user 3 "carol" role_user.
Definition root : User := mk_user 4 "admin" role_admin.

(** Comment 10, written by alice under a question of bob; comment 11,
    written by alice under her own question. *)
Definition comment10 : Comment :=
  {| comment_id := 10; comment_content := "first"; comment_is_answer := false;
     comment_author_id := 1; comment_question_id := 100;
     comment_question_author_id := 2 |}.

Definition comment11 : Comment :=
  {| comment_id := 11; comment_content := "second"; comment_is_answer := false;
     comment_author_id := 1; comment_question_id := 101;
     comment_question_author_id := 1 |}.

Definition sample_db : Db :=
  {| db_users := list_to_map [(1, alice); (2, bob); (3, carol); (4, root)];
     db_comments := list_to_map [(10, comment10); (11, comment11)];
     db_articles := list_to_map
       [(7, {| article_id := 7; article_likes := [2]; article_dislikes := [1] |})] |}.

(** The query value a client of the chat sends for user [name]: a
    one-hour token issued at time 1000 under the key [key]. *)
Definition sample_query (name : string) : string :=
  ("Bearer "
   ++ SecurityToken.create_access_token SecurityToken.reference_jose "key"
        {| SecurityToken.claim_sub := Some name; SecurityToken.claim_exp := None |}
        (Some (SecurityToken.minutes SecurityToken.ACCESS_TOKEN_EXPIRE_MINUTES))
        1000)%string.

End Policy.

(** The language of a pattern, as the regular-expression syntax
    defines it. *)
Module Language.
Import Services.

Inductive matches : regex -> string -> Prop :=
| M_eps : matches Eps ""
| M_class p c : p c = true -> matches (Class p) (String c "")
| M_cat r1 r2 s1 s2 :
    matches r1 s1 -> matches r2 s2 -> matches (Cat r1 r2) (s1 ++ s2)%string
| M_alt_l r1 r2 s : matches r1 s -> matches (Alt r1 r2) s
| M_alt_r r1 r2 s : matches r2 s -> matches (Alt r1 r2) s
| M_star_nil r : matches (Star r) ""
| M_star_cons r s1 s2 :
    matches r s1 -> matches (Star r) s2 -> matches (Star r) (s1 ++ s2)%string.

End Language.

(** Vocabulary for token resolution. *)
Module Tokens.

(** Tokens issued with the lifetime [ttl] fail resolution once that
    lifetime is over, whatever they were issued for. *)
Definition fails_once_over (J : SecurityToken.Jose) (SECRET_KEY : string)
           (db : Db) (ttl : Z) : Prop :=
  forall (data : SecurityToken.claims) (issued now : Z),
    issued + ttl < now ->
    Dependencies.get_user J SECRET_KEY now
      (SecurityToken.create_access_token J SECRET_KEY data (Some ttl) issued) db
    = Raise Dependencies.credentials_exception.

End Tokens.

(** Vocabulary for the token taken from the query string. *)
Module Query.

(** The number of positions of [s] at which [old] starts. *)
Fixpoint occurrences (old : string) (s : string) : nat :=
  match s with
  | EmptyString => O
  | String _ s' => ((if startswith old s then 1 else 0) + occurrences old s')%nat
  end.

End Query.

(** Vocabulary for the rating lists. *)
Module Rating.

(** The other member of the enum. *)
Definition opposite (t : ArticleRatingType) : ArticleRatingType :=
  match t with
  | likes => dislikes
  | dislikes => likes
  end.

(** A list without a given user. *)
Definition without (uid : Z) (l : list Z) : list Z :=
  filter (fun v => v ≠ uid) l.

(** The database after an article row was written back. *)
Definition store_article (db : Db) (article_id : Z) (a : Article) : Db :=
  Crud.set_articles db (<[article_id := a]> (db_articles db)).



End Rating.

(** Vocabulary for the chat registry. *)
Module Registry.
Import SocketManager Chat.

(** The numbers N and M of connects and disconnects in a sequence. *)
Definition n_connects (ops : list op) : nat :=
  length (filter (fun o => is_connect o = true) ops).

Definition n_disconnects (ops : list op) : nat :=
  length (filter (fun o => is_connect o = false) ops).

(** The two synthetic events, as the clients see them. *)
Definition connected_event (user : User) : json :=
  JObj [("user", JStr (user_username user));
        ("message", JStr "connected to the chat");
        ("connection", JBool true)].

Definition left_event (user : User) : json :=
  JObj [("user", JStr (user_username user));
        ("message", JStr "left the chat");
        ("connection", JBool true)].

(** The websockets a list of wire actions sends [data] to. *)
Definition receives (ws : WebSocket) (data : json) (out : list wire) : Prop :=
  In (Send_json ws data) out.

End Registry.

(** Vocabulary for the user table. *)
Module UserTable.

(** Every row sits under its own primary key. *)
Definition keyed (db : Db) : Prop :=
  forall k u, db_users db !! k = Some u -> user_id u = k.

Definition unique_usernames (db : Db) : Prop :=
  forall k1 k2 u1 u2,
    db_users db !! k1 = Some u1 -> db_users db !! k2 = Some u2 ->
    user_username u1 = user_username u2 -> k1 = k2.

Definition unique_emails (db : Db) : Prop :=
  forall k1 k2 u1 u2,
    db_users db !! k1 = Some u1 -> db_users db !! k2 = Some u2 ->
    user_email u1 = user_email u2 -> k1 = k2.

(** What the columns of [models.User] declare: a primary key and two
    unique columns. *)
Definition users_ok (db : Db) : Prop :=
  keyed db /\ unique_usernames db /\ unique_emails db.

(** The claims [login_for_access_token] signs for a user at time [now]. *)
Definition login_claims (u : User) (now : Z) : SecurityToken.claims :=
  {| SecurityToken.claim_sub := Some (user_username u);
     SecurityToken.claim_exp := Some (now + 3600) |}.

(** [c] occurs in [s]. *)
Fixpoint has_char (c : ascii) (s : string) : Prop :=
  match s with
  | EmptyString => False
  | String a s' => a = c \/ has_char c s'
  end.

(** A user whose username is the email address of bob. *)
Definition eve : User :=
  {| user_id := 5; user_username := "bob@observers.com";
     user_email := "eve@observers.com";
     user_password := "$2b$12$abcdefghijklmnopqrstuvsecret$2b$12$abcdefghijklmnopqr";
     user_role := Policy.role_user |}.

(** The sample users with stored hashes of the stand-in context: the
    password of each is [secret]. *)
Definition with_password (u : User) : User :=
  {| user_id := user_id u; user_username := user_username u;
     user_email := user_email u;
     user_password := "$2b$12$abcdefghijklmnopqrstuvsecret$2b$12$abcdefghijklmnopqr";
     user_role := user_role u |}.

Definition login_db : Db :=
  {| db_users := list_to_map [(1, with_password Policy.alice);
                              (2, with_password Policy.bob); (5, eve)];
     db_comments := ∅;
     db_articles := ∅ |}.

End UserTable.

(** Vocabulary for the traffic of the chat. *)
Module Traffic.
Import SocketManager.

(** No message is sent to a websocket before that websocket was
    accepted. *)
Definition sends_follow_accepts (out : list wire) : Prop :=
  forall pre ws data post,
    out = pre ++ Send_json ws data :: post -> In (Accept ws) pre.

(** Every registered websocket was accepted. *)
Definition registered_are_accepted (m : state) : Prop :=
  forall ws user, (ws, user) ∈ active_connections m -> In (Accept ws) (traffic m).

End Traffic.

(** Sample forum tables: question 100 of bob, question 101 of alice. *)
Module ForumSample.

Definition tables : Forum.Tables :=
  {| Forum.forum_db := Policy.sample_db;
     Forum.forum_questions :=
       list_to_map
         [(100, {| Forum.question_id := 100; Forum.question_title := "Why?";
                   Forum.question_author_id := 2 |});
          (101, {| Forum.question_id := 101; Forum.question_title := "How?";
                   Forum.question_author_id := 1 |})];
     Forum.forum_notifications := ∅ |}.

End ForumSample.

(** A second reference instance of the token library, for subjects
    that hold dots: a token is the text [key|expiry|subject], the
    subject standing last so that it may hold any character. *)
Module PlainJose.
Import SecurityToken.

Fixpoint cut (sep : ascii) (acc : string) (s : string) : string * option string :=
  match s with
  | EmptyString => (acc, None)
  | String c s' =>
      if Ascii.eqb c sep then (acc, Some s')
      else cut sep (acc ++ String c EmptyString)%string s'
  end.

Definition plain_encode (c : claims) (key alg : string) : string :=
  (key ++ "|" ++ digits_of 20 (default 0 (claim_exp c)) "" ++ "|"
       ++ default "" (claim_sub c))%string.

Definition plain_decode (token key : string) (algorithms : list string)
           (now : Z) : jwt_error + claims :=
  match cut "|" "" token with
  | (k, Some rest) =>
      if negb (String.eqb k key) then inl JWTError_signature
      else match cut "|" "" rest with
           | (exp, Some sub) =>
               match digits_value 0 exp with
               | None => inl JWTClaimsError
               | Some e =>
                   if e <? now then inl ExpiredSignatureError
                   else inr {| claim_sub := if String.eqb sub "" then None else Some sub;
                               claim_exp := Some e |}
               end
           | (_, None) => inl JWTError_signature
           end
  | (_, None) => inl JWTError_signature
  end.

Definition plain_jose : Jose :=
  {| jwt_encode := plain_encode; jwt_decode := plain_decode |}.

End PlainJose.

(** * Properties *)

(** ** Access policy: the admin-or-owner decorator *)

Section AdminOrOwner.
Import Policy Decorators.
Context {K S A : Type}.
Variable kw_current_user : K -> option User.
Variable kw_user_id : K -> option Z.
Variable func : K -> S -> result A * S.
Variable kwargs : K.
Variable actor : User.
Variable target : Z.
Hypothesis Hactor : kw_current_user kwargs = Some actor.
Hypothesis Htarget : kw_user_id kwargs = Some target.

Lemma is_admin_eqb :
  String.eqb (role_title (user_role actor)) "Admin" = true <-> is_admin actor.
Proof. unfold is_admin. apply String.eqb_eq. Qed.

Lemma no_access_granted (s : S) :
  admin_or_owner actor target ->
  raise_403_if_no_access kw_current_user kw_user_id func kwargs s = func kwargs s.
Proof.
  intros Hperm. unfold raise_403_if_no_access. rewrite Hactor, Htarget.
  destruct Hperm as [Hadm | Hown].
  - apply is_admin_eqb in Hadm. rewrite Hadm. reflexivity.
  - apply Z.eqb_eq in Hown. rewrite Hown, andb_false_r. reflexivity.
Qed.

Lemma no_access_refused (s : S) :
  ~ admin_or_owner actor target ->
  raise_403_if_no_access kw_current_user kw_user_id func kwargs s
  = (Raise not_that_user, s).
Proof.
  intros Hperm. unfold raise_403_if_no_access. rewrite Hactor, Htarget.
  destruct (String.eqb (role_title (user_role actor)) "Admin") eqn:Hadm.
  - exfalso. apply Hperm. left. apply is_admin_eqb, Hadm.
  - destruct (user_id actor =? target) eqn:Hown; [|reflexivity].
    exfalso. apply Hperm. right. apply Z.eqb_eq, Hown.
Qed.
End AdminOrOwner.

(** C4.  For the two user self-service handlers behind
    [raise_403_if_no_access], delete and update: when the actor's role
    title is Admin or the actor's id is the target user id, the call is
    the call of the handler body; otherwise it raises the 403
    [not_that_user] and leaves the database as it was.  The body is
    entered (once) exactly in the first case. *)
Theorem user_self_service_admin_or_owner
        (hash : string -> string) (actor : User) (target : Z)
        (user : UserUpdate) (db : Db) :
  let dkw := {| Users.du_user_id := target; Users.du_current_user := actor |} in
  let ukw := {| Users.upd_user_id := target; Users.upd_user := user;
                Users.upd_current_user := actor |} in
  Decorators.not_that_user = HTTPException 403 "You are not that user." []
  /\ (Policy.admin_or_owner actor target ->
      Users.delete_user dkw db = Users.delete_user_body dkw db
      /\ Users.update_user hash ukw db = Users.update_user_body hash ukw db)
  /\ (~ Policy.admin_or_owner actor target ->
      Users.delete_user dkw db = (Raise Decorators.not_that_user, db)
      /\ Users.update_user hash ukw db = (Raise Decorators.not_that_user, db))
  /\ (Policy.admin_or_owner actor target <->
      Policy.entered
        (Decorators.raise_403_if_no_access
           (fun kw => Some (Users.du_current_user kw))
           (fun kw => Some (Users.du_user_id kw))
           (Policy.counted Users.delete_user_body) dkw (db, O)) = 1%nat)
  /\ (Policy.admin_or_owner actor target <->
      Policy.entered
        (Decorators.raise_403_if_no_access
           (fun kw => Some (Users.upd_current_user kw))
           (fun kw => Some (Users.upd_user_id kw))
           (Policy.counted (Users.update_user_body hash)) ukw (db, O)) = 1%nat).
Proof.
  intros dkw ukw.
  assert (Hdec : Policy.admin_or_owner actor target
                 \/ ~ Policy.admin_or_owner actor target).
  { unfold Policy.admin_or_owner, Policy.is_admin.
    destruct (decide (role_title (user_role actor) = "Admin")); [tauto|].
    destruct (decide (user_id actor = target)); tauto. }
  split; [reflexivity|].
  split.
  { intros Hp. split; unfold Users.delete_user, Users.update_user;
      eapply no_access_granted; eauto. }
  split.
  { intros Hp. split; unfold Users.delete_user, Users.update_user;
      eapply no_access_refused; eauto. }
  split.
  - split.
    + intros Hp.
      erewrite no_access_granted by eauto.
      unfold Policy.entered, Policy.counted. simpl.
      destruct (Users.delete_user_body dkw db). reflexivity.
    + intros Hent. destruct Hdec as [Hp | Hn]; [exact Hp|].
      erewrite no_access_refused in Hent by eauto. discriminate Hent.
  - split.
    + intros Hp.
      erewrite no_access_granted by eauto.
      unfold Policy.entered, Policy.counted. simpl.
      destruct (Users.update_user_body hash ukw db). reflexivity.
    + intros Hent. destruct Hdec as [Hp | Hn]; [exact Hp|].
      erewrite no_access_refused in Hent by eauto. discriminate Hent.
Qed.

(** ** Access policy: editing a comment *)

Section CommentEdit.
Import Policy Comments.

Lemma str_truthy_spec (o : option string) :
  Crud.str_truthy o = true <-> exists s, o = Some s /\ s <> "".
Proof.
  destruct o as [s|]; simpl.
  - rewrite negb_true_iff. split.
    + intros H. exists s. split; [reflexivity|].
      intros ->. discriminate H.
    + intros (s' & [= <-] & Hne). apply String.eqb_neq, Hne.
  - split; [discriminate|]. intros (s & [=] & _).
Qed.

Lemma content_rule_test (actor : User) (c : Comment) (req : CommentUpdate) :
  Crud.str_truthy (value_of (cu_content req))
  && (user_id actor =? comment_author_id c) = true
  <-> content_rule actor c req.
Proof.
  unfold content_rule. rewrite andb_true_iff, str_truthy_spec, Z.eqb_eq.
  split.
  - intros [(s & Hs & Hne) Hid]. exists s.
    destruct (cu_content req); simpl in Hs; try discriminate Hs.
    injection Hs as ->. auto.
  - intros (s & Hs & Hne & Hid). rewrite Hs. simpl. eauto.
Qed.

Lemma is_answer_rule_test (actor : User) (c : Comment) (req : CommentUpdate) :
  match value_of (cu_is_answer req) with Some _ => true | None => false end
  && (user_id actor =? comment_question_author_id c) = true
  <-> is_answer_rule actor c req.
Proof.
  unfold is_answer_rule. rewrite andb_true_iff, Z.eqb_eq.
  destruct (cu_is_answer req) as [| |b]; simpl; split.
  - intros [[=] _].
  - intros (b' & [=] & _).
  - intros [[=] _].
  - intros (b' & [=] & _).
  - intros [_ Hid]. eauto.
  - intros (b' & _ & Hid). auto.
Qed.

(** An update that sends no field as [null] is written. *)
Lemma update_comment_object_found (db : Db) (id : Z) (c : Comment)
      (so : CommentUpdate) :
  db_comments db !! id = Some c ->
  cu_content so <> Null -> cu_is_answer so <> Null ->
  of_result (Crud.update_comment_object db id so)
  = (let c' := with_is_answer
                 (with_content c
                    (default (comment_content c) (value_of (cu_content so))))
                 (default (comment_is_answer c) (value_of (cu_is_answer so))) in
     (Returns c', store_comment db id c')).
Proof.
  intros Hc Hn1 Hn2. unfold Crud.update_comment_object, Crud.get_object.
  rewrite Hc.
  destruct (cu_content so); [|contradiction|];
    (destruct (cu_is_answer so); [|contradiction|]); reflexivity.
Qed.

(** An update that sends a field as [null] is refused by the database,
    and nothing is written. *)
Lemma update_comment_object_null (db : Db) (id : Z) (c : Comment)
      (so : CommentUpdate) :
  db_comments db !! id = Some c ->
  cu_content so = Null \/ cu_is_answer so = Null ->
  Crud.update_comment_object db id so = (Raise IntegrityError, db).
Proof.
  intros Hc Hnull. unfold Crud.update_comment_object, Crud.get_object.
  rewrite Hc.
  destruct Hnull as [-> | ->]; [reflexivity|].
  rewrite orb_true_r. reflexivity.
Qed.

(** A field sent as [null] by an Admin reaches the database and is
    refused there; sent by anyone else it reads as a field left out. *)
Lemma null_field_of_admin_is_refused
      (actor : User) (comment_id : Z) (req : CommentUpdate) (db : Db) (c : Comment) :
  is_admin actor -> db_comments db !! comment_id = Some c ->
  cu_content req = Null \/ cu_is_answer req = Null ->
  update_comment comment_id req db actor = (Raises IntegrityError, db).
Proof.
  intros Hadm Hc Hnull. unfold update_comment.
  apply String.eqb_eq in Hadm. rewrite Hadm.
  rewrite (update_comment_object_null _ _ _ _ Hc Hnull). reflexivity.
Qed.
End CommentEdit.

(** C1, as the table words it, fails on the handler.  Alice, who wrote
    comment 11 under her own question, sends a new content together with
    the is-answer flag: the flag, which the table grants to the author
    of the question, is not written.  Alice sends the empty string as
    the new content of her comment 10: nothing is written.  Carol, a
    stranger to comment 10, sends a content: the handler ends without an
    answer. *)
Lemma comment_edit_table_not_followed :
  ~ Policy.decides_as_table Policy.alice 11
      {| cu_content := Given "edited"; cu_is_answer := Given true |} Policy.sample_db
  /\ ~ Policy.decides_as_table Policy.alice 10
        {| cu_content := Given ""; cu_is_answer := Absent |} Policy.sample_db
  /\ ~ Policy.decides_as_table Policy.carol 10
        {| cu_content := Given "spam"; cu_is_answer := Absent |} Policy.sample_db.
Proof.
  split; [|split]; intros H.
  - destruct (H Policy.comment11 eq_refl) as [_ Hf].
    destruct (Hf Policy.Is_answer) as [Hallow _].
    specialize (Hallow (or_intror eq_refl) (inr true) eq_refl).
    vm_compute in Hallow. discriminate Hallow.
  - destruct (H Policy.comment10 eq_refl) as [_ Hf].
    destruct (Hf Policy.Content) as [Hallow _].
    specialize (Hallow (or_intror eq_refl) (inl "") eq_refl).
    vm_compute in Hallow. discriminate Hallow.
  - destruct (H Policy.comment10 eq_refl) as [Hnone _].
    apply Hnone. vm_compute. reflexivity.
Qed.

(** C1, amended.  A comment that does not exist is a 404, whoever asks.
    An Admin's request that sends no field as [null] is applied to an
    existing comment as sent: every field it carries is replaced by the
    value sent, a field left out stays.  For any other actor: the author
    of the comment who sends a non-empty content gets exactly the
    content replaced; failing that, the author of the question who sends
    an is-answer flag gets exactly the flag replaced; in every remaining
    case the database is left as it was. *)
Theorem comment_edit_policy
        (actor : User) (comment_id : Z) (req : CommentUpdate) (db : Db) :
  let r := Comments.update_comment comment_id req db actor in
  (db_comments db !! comment_id = None ->
   r = (Comments.Raises (Crud.does_not_exist "Comment"), db))
  /\ (forall c, Policy.is_admin actor -> db_comments db !! comment_id = Some c ->
      cu_content req <> Null -> cu_is_answer req <> Null ->
      let c' := Policy.with_is_answer
                  (Policy.with_content c
                     (default (comment_content c) (value_of (cu_content req))))
                  (default (comment_is_answer c) (value_of (cu_is_answer req))) in
      r = (Comments.Returns c', Policy.store_comment db comment_id c'))
  /\ (forall c, ~ Policy.is_admin actor -> db_comments db !! comment_id = Some c ->
      (forall s, Policy.content_rule actor c req -> cu_content req = Given s ->
         r = (Comments.Returns (Policy.with_content c s),
              Policy.store_comment db comment_id (Policy.with_content c s)))
      /\ (forall b, ~ Policy.content_rule actor c req ->
            Policy.is_answer_rule actor c req -> cu_is_answer req = Given b ->
            r = (Comments.Returns (Policy.with_is_answer c b),
                 Policy.store_comment db comment_id (Policy.with_is_answer c b)))
      /\ (~ Policy.content_rule actor c req -> ~ Policy.is_answer_rule actor c req ->
          snd r = db)).
Proof.
  intros r. subst r. unfold Comments.update_comment.
  destruct (String.eqb (role_title (user_role actor)) "Admin") eqn:Hadm.
  - apply String.eqb_eq in Hadm.
    split; [|split].
    + intros Hc. unfold Crud.update_comment_object, Crud.get_object.
      rewrite Hc. reflexivity.
    + intros c _ Hc Hn1 Hn2.
      rewrite (update_comment_object_found _ _ _ _ Hc Hn1 Hn2). reflexivity.
    + intros c Hn. contradiction.
  - apply String.eqb_neq in Hadm.
    split; [|split].
    + intros Hc. unfold Crud.get_object. rewrite Hc. reflexivity.
    + intros c Hy. contradiction.
    + intros c _ Hc. unfold Crud.get_object. rewrite Hc.
      destruct (Crud.str_truthy (value_of (cu_content req))
                && (user_id actor =? comment_author_id c)) eqn:Hcontent.
      * apply content_rule_test in Hcontent.
        split; [|split].
        -- intros s _ Hs. rewrite Hs. simpl passed.
           rewrite (update_comment_object_found _ _ _ _ Hc) by discriminate.
           simpl. destruct c; reflexivity.
        -- intros b Hn. contradiction.
        -- intros Hn. contradiction.
      * assert (Hnc : ~ Policy.content_rule actor c req).
        { intros Hr. apply content_rule_test in Hr. congruence. }
        destruct (match value_of (cu_is_answer req) with
                  | Some _ => true
                  | None => false
                  end
                  && (user_id actor =? comment_question_author_id c)) eqn:Hflag.
        -- apply is_answer_rule_test in Hflag.
           split; [|split].
           ++ intros s Hr. contradiction.
           ++ intros b _ _ Hb. rewrite Hb. simpl passed.
              rewrite (update_comment_object_found _ _ _ _ Hc) by discriminate.
              simpl. destruct c; reflexivity.
           ++ intros _ Hn. contradiction.
        -- split; [|split].
           ++ intros s Hr. contradiction.
           ++ intros b _ Hr. apply is_answer_rule_test in Hr. congruence.
           ++ reflexivity.
Qed.

(** ** Credential service: resolving a token *)

(** C2, as worded, fails: a token issued with a lifetime of zero is not
    an expired token.  Issued for alice at time 1000, it still resolves
    to her a minute later. *)
Lemma zero_ttl_token_not_expired :
  ~ Tokens.fails_once_over SecurityToken.reference_jose "key" Policy.sample_db 0.
Proof.
  intros H.
  specialize (H {| SecurityToken.claim_sub := Some "alice";
                   SecurityToken.claim_exp := None |} 1000 1060 eq_refl).
  vm_compute in H. discriminate H.
Qed.

(** C2, amended.  Whatever goes wrong while a token is resolved, the
    caller sees the one 401 [credentials_exception]: a decoding error of
    any kind (a signature that does not verify, an expired token), a
    payload without [sub], a subject no user row answers to; and
    resolution raises nothing else.  A token issued with a lifetime of
    zero is not among the expired ones: with any token library it is
    the token of the default lifetime, stamped to expire fifteen
    minutes after it was issued. *)
Theorem resolution_failures_uniform
        (J : SecurityToken.Jose) (SECRET_KEY : string) (now : Z) (db : Db)
        (user_token : string) :
  let decoded :=
    SecurityToken.jwt_decode J user_token SECRET_KEY [SecurityToken.ALGORITHM] now in
  let resolved := Dependencies.get_user J SECRET_KEY now user_token db in
  Dependencies.credentials_exception
  = HTTPException 401 "Could not validate credentials"
                  [("WWW-Authenticate", "Bearer")]
  /\ (forall e, decoded = inl e ->
        resolved = Raise Dependencies.credentials_exception)
  /\ (forall payload,
        decoded = inr payload -> SecurityToken.claim_sub payload = None ->
        resolved = Raise Dependencies.credentials_exception)
  /\ (forall payload username,
        decoded = inr payload ->
        SecurityToken.claim_sub payload = Some username ->
        Services.get_user_by_username_or_email db username = None ->
        resolved = Raise Dependencies.credentials_exception)
  /\ (forall e, resolved = Raise e -> e = Dependencies.credentials_exception)
  /\ (forall data issued,
        SecurityToken.create_access_token J SECRET_KEY data (Some 0) issued
        = SecurityToken.create_access_token J SECRET_KEY data None issued
        /\ SecurityToken.create_access_token J SECRET_KEY data None issued
           = SecurityToken.jwt_encode J
               {| SecurityToken.claim_sub := SecurityToken.claim_sub data;
                  SecurityToken.claim_exp := Some (issued + 900) |}
               SECRET_KEY "HS256").
Proof.
  intros decoded resolved. subst decoded resolved.
  unfold Dependencies.get_user.
  split; [reflexivity|].
  split; [intros e ->; reflexivity|].
  split; [intros p -> ->; reflexivity|].
  split; [intros p u -> -> ->; reflexivity|].
  split; [|intros data issued; split; reflexivity].
  intros e.
  destruct (SecurityToken.jwt_decode J user_token SECRET_KEY
              [SecurityToken.ALGORITHM] now) as [err|p];
    [intros [= <-]; reflexivity|].
  destruct (SecurityToken.claim_sub p) as [u|]; [|intros [= <-]; reflexivity].
  destruct (Services.get_user_by_username_or_email db u);
    [discriminate|intros [= <-]; reflexivity].
Qed.

(** ** Credential service: verifying a password *)

(** C3.  [verify_password] has no handler of its own, and neither have
    its callers: an exception the context raises for a stored string
    leaves [verify_password] as it is, and leaves [authenticate_user]
    and the token endpoint whenever the lookup finds a row that stores
    that string. *)
Theorem verify_password_lets_errors_through
        (B : Hashing.Bcrypt) (plain hashed : string) (e : exn) :
  Hashing.pwd_context_verify B plain hashed = Raise e ->
  Hashing.verify_password B plain hashed = Raise e
  /\ (forall b : bool, Hashing.verify_password B plain hashed <> Ok b)
  /\ forall (J : SecurityToken.Jose) (SECRET_KEY : string) (now : Z)
            (db : Db) (username : string) (u : User),
       Services.get_user_by_username_or_email db username = Some u ->
       user_password u = hashed ->
       Login.authenticate_user B db username plain = Raise e
       /\ Login.login_for_access_token J SECRET_KEY B now db username plain
          = Raise e.
Proof.
  intros He. unfold Hashing.verify_password.
  split; [exact He|].
  split; [intros b Hb; congruence|].
  intros J key now db username u Hu Hp.
  unfold Login.login_for_access_token, Login.authenticate_user,
    Hashing.verify_password.
  rewrite Hu, Hp, He. split; reflexivity.
Qed.

(** The theorem at work on the stand-in context: the string [admin]
    stored where a hash should be. *)
Lemma verify_password_lets_errors_through_admin :
  exists e,
    Hashing.verify_password Hashing.reference_bcrypt "admin" "admin" = Raise e.
Proof.
  exists Hashing.reference_refusal.
  apply (verify_password_lets_errors_through
           Hashing.reference_bcrypt "admin" "admin" Hashing.reference_refusal).
  reflexivity.
Defined.

(** ** Credential service: the dual-mode lookup *)

Section PatternMatching.
Import Services Language.

Lemma append_empty (s1 s2 : string) :
  (s1 ++ s2)%string = "" -> s1 = "" /\ s2 = "".
Proof. destruct s1; simpl; [auto|discriminate]. Qed.

Lemma append_cons (s1 s2 : string) (c : ascii) (s : string) :
  (s1 ++ s2)%string = String c s ->
  (s1 = "" /\ s2 = String c s)
  \/ exists s1', s1 = String c s1' /\ s = (s1' ++ s2)%string.
Proof.
  destruct s1 as [|a s1']; simpl.
  - auto.
  - intros [= -> <-]. right. eauto.
Qed.

Lemma matches_empty_nullable (r : regex) (s : string) :
  matches r s -> s = "" -> nullable r = true.
Proof.
  induction 1 as [| | r1 r2 s1 s2 _ IH1 _ IH2 | r1 r2 s _ IH | r1 r2 s _ IH
                 | | ]; intros Hs; simpl; try reflexivity.
  - discriminate Hs.
  - apply append_empty in Hs as [-> ->]. rewrite IH1, IH2; reflexivity.
  - rewrite IH by assumption. reflexivity.
  - rewrite IH by assumption. apply orb_true_r.
Qed.

Lemma nullable_matches_empty (r : regex) :
  nullable r = true -> matches r "".
Proof.
  induction r as [| | p | r1 IH1 r2 IH2 | r1 IH1 r2 IH2 | r IH]; simpl;
    intros Hn; try discriminate.
  - constructor.
  - apply andb_true_iff in Hn as [H1 H2].
    change ""%string with ("" ++ "")%string. constructor; auto.
  - apply orb_true_iff in Hn as [H1 | H2];
      [apply M_alt_l | apply M_alt_r]; auto.
  - constructor.
Qed.

Lemma deriv_sound (c : ascii) (r : regex) :
  forall s, matches (deriv c r) s -> matches r (String c s).
Proof.
  induction r as [| | p | r1 IH1 r2 IH2 | r1 IH1 r2 IH2 | r IH]; simpl; intros s H.
  - inversion H.
  - inversion H.
  - destruct (p c) eqn:Hp; inversion H; subst. constructor. exact Hp.
  - assert (Hcat : forall s, matches (Cat (deriv c r1) r2) s ->
                             matches (Cat r1 r2) (String c s)).
    { intros s0 H0. inversion H0; subst.
      change (String c (s1 ++ s2)) with (String c s1 ++ s2)%string.
      constructor; auto. }
    destruct (nullable r1) eqn:Hn.
    + inversion H; subst; [auto|].
      change (String c s) with ("" ++ String c s)%string.
      constructor; [apply nullable_matches_empty, Hn | auto].
    + auto.
  - inversion H; subst; [apply M_alt_l | apply M_alt_r]; auto.
  - inversion H; subst.
    change (String c (s1 ++ s2)) with (String c s1 ++ s2)%string.
    constructor; auto.
Qed.

Lemma deriv_complete (r : regex) (s' : string) :
  matches r s' -> forall c s, s' = String c s -> matches (deriv c r) s.
Proof.
  induction 1 as [| p a Hp | r1 r2 s1 s2 H1 IH1 H2 IH2 | r1 r2 s0 _ IH
                 | r1 r2 s0 _ IH | | r s1 s2 H1 IH1 H2 IH2];
    intros c s Hs; simpl.
  - discriminate Hs.
  - injection Hs as -> <-. rewrite Hp. constructor.
  - apply append_cons in Hs as [[-> ->] | (s1' & -> & ->)].
    + rewrite (matches_empty_nullable _ _ H1 eq_refl).
      apply M_alt_r. eauto.
    + destruct (nullable r1); [apply M_alt_l|]; constructor; eauto.
  - apply M_alt_l. eauto.
  - apply M_alt_r. eauto.
  - discriminate Hs.
  - apply append_cons in Hs as [[-> ->] | (s1' & -> & ->)].
    + exact (IH2 _ _ eq_refl).
    + constructor; eauto.
Qed.

(** The matcher decides membership in the language of the pattern. *)
Lemma fullmatch_spec (s : string) :
  forall r, fullmatch r s = true <-> matches r s.
Proof.
  induction s as [|c s IH]; intros r; simpl.
  - split; [apply nullable_matches_empty|].
    intros H. exact (matches_empty_nullable _ _ H eq_refl).
  - rewrite IH. split; [apply deriv_sound|].
    intros H. exact (deriv_complete _ _ H _ _ eq_refl).
Qed.
End PatternMatching.

(** ** Queries on the user table *)

Section FirstUser.
Implicit Types (db : Db) (P : User -> bool).

Lemma first_user_Some P db u :
  Crud.first_user P db = Some u ->
  P u = true /\ exists k, db_users db !! k = Some u.
Proof.
  unfold Crud.first_user. intros Hhead.
  apply head_Some_elem_of in Hhead.
  apply list_elem_of_filter in Hhead as [HP Hin]. split; [exact HP|].
  apply list_elem_of_fmap in Hin as ([k u'] & -> & Hin).
  exists k. apply elem_of_map_to_list in Hin. exact Hin.
Qed.

Lemma first_user_None P db :
  Crud.first_user P db = None ->
  forall k u, db_users db !! k = Some u -> P u = false.
Proof.
  unfold Crud.first_user. intros Hhead k u Hu.
  apply head_None in Hhead.
  destruct (P u) eqn:HP; [|reflexivity]. exfalso.
  apply (filter_nil_not_elem_of _ _ u Hhead HP).
  apply list_elem_of_fmap. exists (k, u). split; [reflexivity|].
  apply elem_of_map_to_list. exact Hu.
Qed.

(** A query that one row only answers returns that row. *)
Lemma first_user_unique P db k u :
  db_users db !! k = Some u -> P u = true ->
  (forall k' u', db_users db !! k' = Some u' -> P u' = true -> u' = u) ->
  Crud.first_user P db = Some u.
Proof.
  intros Hu HP Huniq.
  destruct (Crud.first_user P db) as [u'|] eqn:Hfirst.
  - apply first_user_Some in Hfirst as [HP' [k' Hu']].
    f_equal. exact (Huniq _ _ Hu' HP').
  - pose proof (first_user_None _ _ Hfirst _ _ Hu). congruence.
Qed.
End FirstUser.

Section DualModeLookup.
Import Services.

(** What a query on one column of the user table returns: a row that
    carries the value, none exactly when no row carries it, and the row
    itself where the column holds no value twice. *)
Lemma first_user_by_column (column : User -> string) (db : Db) (s : string) :
  let r := Crud.first_user (fun u => String.eqb (column u) s) db in
  (forall u, r = Some u -> column u = s /\ exists k, db_users db !! k = Some u)
  /\ (r = None <-> forall k u, db_users db !! k = Some u -> column u <> s)
  /\ (forall k u,
        (forall k1 k2 u1 u2,
           db_users db !! k1 = Some u1 -> db_users db !! k2 = Some u2 ->
           column u1 = column u2 -> k1 = k2) ->
        db_users db !! k = Some u -> column u = s -> r = Some u).
Proof.
  intros r. subst r. split; [|split].
  - intros u Hr. apply first_user_Some in Hr as [HP Hk].
    apply String.eqb_eq in HP. auto.
  - split.
    + intros Hr k u Hu. apply String.eqb_neq.
      exact (first_user_None _ _ Hr k u Hu).
    + intros Hnone.
      destruct (Crud.first_user (fun u => String.eqb (column u) s) db)
        as [u|] eqn:Hr; [|reflexivity].
      apply first_user_Some in Hr as [HP [k Hu]].
      apply String.eqb_eq in HP. exfalso. exact (Hnone k u Hu HP).
  - intros k u Huniq Hu Hs.
    apply (first_user_unique _ _ k); [exact Hu | apply String.eqb_eq, Hs |].
    intros k' u' Hu' HP. apply String.eqb_eq in HP.
    assert (k' = k) as -> by (apply (Huniq _ _ _ _ Hu' Hu); congruence).
    congruence.
Qed.
End DualModeLookup.

(** C6.  The lookup consults one column of the user table, and which
    one depends on the shape of the subject string alone.  When the
    string is in the language of the email pattern, the answer is a row
    of the table whose email is that string, and there is no answer
    exactly when no row has that email, whatever the usernames in the
    table; emails being unique, the answer is the row that has it.
    When the string is not in the language, the same holds with the
    username in place of the email. *)
Theorem lookup_is_dual_mode (db : Db) (username : string) :
  let r := Services.get_user_by_username_or_email db username in
  (Language.matches Services.email_pattern username ->
   (forall u, r = Some u ->
      user_email u = username /\ exists k, db_users db !! k = Some u)
   /\ (r = None <->
       forall k u, db_users db !! k = Some u -> user_email u <> username)
   /\ (forall k u, UserTable.unique_emails db ->
         db_users db !! k = Some u -> user_email u = username -> r = Some u))
  /\ (~ Language.matches Services.email_pattern username ->
      (forall u, r = Some u ->
         user_username u = username /\ exists k, db_users db !! k = Some u)
      /\ (r = None <->
          forall k u, db_users db !! k = Some u -> user_username u <> username)
      /\ (forall k u, UserTable.unique_usernames db ->
            db_users db !! k = Some u -> user_username u = username ->
            r = Some u)).
Proof.
  intros r. subst r.
  unfold Services.get_user_by_username_or_email,
    Services.get_user_by_username_or_email_traced,
    Services.get_object_by_expression.
  pose proof (fullmatch_spec username Services.email_pattern) as Hspec.
  fold (Services.isemail username) in Hspec.
  destruct (Services.isemail username) eqn:Hmail; simpl fst.
  - split; [|intros Hn; exfalso; apply Hn, Hspec; reflexivity].
    intros _. exact (first_user_by_column user_email db username).
  - split; [intros Hm; apply Hspec in Hm; discriminate Hm|].
    intros _. exact (first_user_by_column user_username db username).
Qed.

(** ** Credential service: the token in the query string *)

Section BearerRemoval.
Import Dependencies Query.

Lemma startswith_split (p s : string) :
  startswith p s = true -> exists rest, s = (p ++ rest)%string.
Proof.
  revert s. induction p as [|a p IH]; intros s; simpl.
  - intros _. exists s. reflexivity.
  - destruct s as [|b s]; [discriminate|].
    intros H. apply andb_true_iff in H as [Hab H].
    apply Ascii.eqb_eq in Hab as <-.
    destruct (IH _ H) as [rest ->]. exists rest. reflexivity.
Qed.

Lemma remove_bearer_at (rest : string) :
  str_remove "Bearer " ("Bearer " ++ rest) = str_remove "Bearer " rest.
Proof. reflexivity. Qed.

Lemma occurrences_bearer_at (rest : string) :
  occurrences "Bearer " ("Bearer " ++ rest) = S (occurrences "Bearer " rest).
Proof. reflexivity. Qed.

Lemma remove_bearer_length (n : nat) :
  forall s, (String.length s <= n)%nat ->
    (String.length (str_remove "Bearer " s) + 7 * occurrences "Bearer " s
     = String.length s)%nat.
Proof.
  induction n as [|n IH]; intros s Hlen.
  - destruct s; [reflexivity|simpl in Hlen; lia].
  - destruct s as [|c s']; [reflexivity|].
    destruct (startswith "Bearer " (String c s')) eqn:Hp.
    + destruct (startswith_split _ _ Hp) as [rest Hrest]. rewrite Hrest.
      rewrite remove_bearer_at, occurrences_bearer_at.
      assert (Hl : String.length ("Bearer " ++ rest) = (7 + String.length rest)%nat)
        by reflexivity.
      rewrite Hrest, Hl in Hlen. rewrite Hl.
      assert (Hr : (String.length rest <= n)%nat) by lia.
      specialize (IH rest Hr). lia.
    + unfold str_remove. simpl remove_from. simpl occurrences.
      simpl in Hp. rewrite Hp.
      assert (Hr : (String.length s' <= n)%nat) by (simpl in Hlen; lia).
      specialize (IH s' Hr). unfold str_remove in IH. simpl. lia.
Qed.
End BearerRemoval.

Lemma remove_bearer_absent (s : string) :
  Query.occurrences "Bearer " s = O -> Dependencies.str_remove "Bearer " s = s.
Proof.
  unfold Dependencies.str_remove.
  induction s as [|c s IH]; [reflexivity|].
  simpl Query.occurrences. simpl Dependencies.remove_from.
  destruct (startswith "Bearer " (String c s)) eqn:Hp; simpl in Hp; rewrite Hp.
  - discriminate.
  - intros Hocc. rewrite IH by exact Hocc. reflexivity.
Qed.

(** C9.  [get_token_in_query] drops every occurrence of the seven
    characters [Bearer ], wherever they stand: the result is shorter by
    seven characters per occurrence.  A token without an occurrence goes
    to [get_user] as it is, with or without the prefix in front of it; a
    token with an occurrence anywhere is altered. *)
Theorem bearer_removed_everywhere (token : string) :
  (String.length (Dependencies.get_token_in_query token)
   + 7 * Query.occurrences "Bearer " token = String.length token)%nat
  /\ (Query.occurrences "Bearer " token = O
      <-> Dependencies.get_token_in_query token = token)
  /\ (Query.occurrences "Bearer " token = O ->
      Dependencies.get_token_in_query ("Bearer " ++ token) = token
      /\ forall J key now db,
          Dependencies.get_current_user_by_query J key now token db
          = Dependencies.get_user J key now token db
          /\ Dependencies.get_current_user_by_query J key now ("Bearer " ++ token) db
             = Dependencies.get_user J key now token db)
  /\ Dependencies.get_token_in_query "HS256.Bearer alice.1900.key"
     = "HS256.alice.1900.key".
Proof.
  unfold Dependencies.get_token_in_query.
  pose proof (remove_bearer_length (String.length token) token (le_n _)) as Hlen.
  split; [exact Hlen|].
  split.
  { split; [apply remove_bearer_absent|].
    intros Heq. rewrite Heq in Hlen. lia. }
  split; [|reflexivity].
  intros Hocc.
  assert (Hpre : Dependencies.str_remove "Bearer " ("Bearer " ++ token) = token).
  { rewrite remove_bearer_at. apply remove_bearer_absent, Hocc. }
  split; [exact Hpre|].
  intros J key now db.
  unfold Dependencies.get_current_user_by_query, Dependencies.get_token_in_query.
  rewrite Hpre, (remove_bearer_absent _ Hocc). split; reflexivity.
Qed.

(** ** Article ratings *)

Section RatingLists.
Implicit Types (l : list Z) (x : Z).



Lemma list_in_spec l x : list_in x l = true <-> x ∈ l.
Proof. unfold list_in. apply bool_decide_eq_true. Qed.

End RatingLists.

Section RatingToggle.
Import Articles Rating.

Lemma other_name_opposite (t : ArticleRatingType) : other_name t = Ok (opposite t).
Proof. destruct t; reflexivity. Qed.


Lemma getattr_setattr_opposite (a : Article) (t : ArticleRatingType) (l : list Z) :
  getattr (setattr a t l) (opposite t) = getattr a (opposite t).
Proof. destruct t; reflexivity. Qed.


Lemma opposite_involutive (t : ArticleRatingType) : opposite (opposite t) = t.
Proof. destruct t; reflexivity. Qed.



Lemma not_in_without (uid : Z) (l : list Z) : uid ∉ without uid l.
Proof. unfold without. rewrite list_elem_of_filter. tauto. Qed.


End RatingToggle.




(** ** Connection registry *)

Section ListRemove.
Context `{EqDecision A}.
Implicit Types (x y : A) (l : list A).
Import Registry.

Lemma list_remove_present x l :
  x ∈ l ->
  exists l1 l2, l = l1 ++ x :: l2 /\ (x ∉ l1) /\ list_remove x l = Some (l1 ++ l2).
Proof.
  induction l as [|y l IH]; intros Hin.
  - inversion Hin.
  - simpl. destruct (decide (x = y)) as [->|Hne].
    + exists [], l. split; [reflexivity|]. split; [apply not_elem_of_nil|reflexivity].
    + apply elem_of_cons in Hin as [Hin|Hin]; [contradiction|].
      destruct (IH Hin) as (l1 & l2 & -> & Hl1 & ->).
      exists (y :: l1), l2. split; [reflexivity|].
      split; [|reflexivity].
      apply not_elem_of_cons. split; assumption.
Qed.

Lemma list_remove_absent x l : x ∉ l -> list_remove x l = None.
Proof.
  induction l as [|y l IH]; intros Hout; [reflexivity|].
  apply not_elem_of_cons in Hout as [Hne Hout]. simpl.
  rewrite decide_False by exact Hne. rewrite IH by exact Hout. reflexivity.
Qed.

Lemma list_count_nil x : list_count x [] = O.
Proof. reflexivity. Qed.

Lemma list_count_cons x y l :
  list_count x (y :: l) = ((if decide (y = x) then 1 else 0) + list_count x l)%nat.
Proof.
  unfold list_count. destruct (decide (y = x)) as [Heq|Hne].
  - rewrite filter_cons_True by exact Heq. reflexivity.
  - rewrite filter_cons_False by exact Hne. reflexivity.
Qed.

Lemma list_count_app x l1 l2 :
  list_count x (l1 ++ l2) = (list_count x l1 + list_count x l2)%nat.
Proof. unfold list_count. rewrite filter_app, length_app. reflexivity. Qed.

Lemma list_count_positive x l : (0 < list_count x l)%nat -> x ∈ l.
Proof.
  induction l as [|y l IH]; [rewrite list_count_nil; lia|].
  rewrite list_count_cons. destruct (decide (y = x)) as [->|Hne].
  - intros _. apply elem_of_cons. left. reflexivity.
  - intros Hpos. apply elem_of_cons. right. apply IH. exact Hpos.
Qed.

Lemma list_count_NoDup x l : NoDup l -> (list_count x l <= 1)%nat.
Proof.
  induction 1 as [|y l Hy Hnd IH]; [rewrite list_count_nil; lia|].
  rewrite list_count_cons. destruct (decide (y = x)) as [->|Hne]; [|lia].
  destruct (list_count x l) eqn:Hc; [lia|].
  exfalso. apply Hy, list_count_positive. lia.
Qed.
End ListRemove.

Section ChatEndpoint.
Import SocketManager Chat Registry.

Lemma left_event_is_updated_response (user : User) :
  JObj (dict_setitem "message" (JStr "left the chat") (response user))
  = left_event user.
Proof. reflexivity. Qed.

Lemma deliveries_receives (data : json) (conns : list (WebSocket * User))
      (ws : WebSocket) :
  receives ws data (deliveries data conns) <-> exists user, (ws, user) ∈ conns.
Proof.
  unfold receives, deliveries. rewrite in_map_iff. split.
  - intros ([ws' user] & [= ->] & Hin). exists user.
    apply list_elem_of_In, Hin.
  - intros [user Hin]. exists (ws, user). split; [reflexivity|].
    apply list_elem_of_In, Hin.
Qed.

Lemma deliveries_only (data data' : json) (conns : list (WebSocket * User))
      (ws : WebSocket) :
  In (Send_json ws data') (deliveries data conns) -> data' = data.
Proof.
  unfold deliveries. rewrite in_map_iff. intros (c & [= _ ->] & _). reflexivity.
Qed.
End ChatEndpoint.

(** C7.  When the token in the query resolves to a user, the endpoint
    accepts the websocket, appends it with its user to the registry and
    sends the connected event to every registered connection, the new
    one among them.  When the handler of a registered connection sees it
    closed, the connection is taken out of the registry and the left
    event goes to the connections that remain.  When the token does not
    resolve, the registry and the traffic are as before: nothing is
    registered and nothing is sent. *)
Theorem chat_lifecycle
        (J : SecurityToken.Jose) (SECRET_KEY : string) (now : Z) (db : Db)
        (websocket : SocketManager.WebSocket) (token : string)
        (m : SocketManager.state) :
  let conns := SocketManager.active_connections m in
  (forall user,
      Dependencies.get_current_user_by_query J SECRET_KEY now token db = Ok user ->
      let m' := Chat.chat_open J SECRET_KEY now db websocket token m in
      SocketManager.active_connections m' = conns ++ [(websocket, user)]
      /\ SocketManager.traffic m'
         = SocketManager.traffic m ++ [SocketManager.Accept websocket]
           ++ SocketManager.deliveries (Registry.connected_event user)
                (conns ++ [(websocket, user)])
      /\ Registry.receives websocket (Registry.connected_event user)
           (SocketManager.deliveries (Registry.connected_event user)
              (conns ++ [(websocket, user)]))
      /\ (forall ws u, (ws, u) ∈ conns ->
            Registry.receives ws (Registry.connected_event user)
              (SocketManager.deliveries (Registry.connected_event user)
                 (conns ++ [(websocket, user)]))))
  /\ (forall user, (websocket, user) ∈ conns ->
        exists rest,
          Chat.chat_disconnected websocket user m
          = Some {| SocketManager.active_connections := rest;
                    SocketManager.traffic :=
                      SocketManager.traffic m
                      ++ SocketManager.deliveries (Registry.left_event user) rest |}
          /\ list_remove (websocket, user) conns = Some rest
          /\ length conns = S (length rest)
          /\ (NoDup conns -> (websocket, user) ∉ rest)
          /\ (forall ws, Registry.receives ws (Registry.left_event user)
                           (SocketManager.deliveries (Registry.left_event user) rest)
                         <-> exists u, (ws, u) ∈ rest))
  /\ (forall e,
        Dependencies.get_current_user_by_query J SECRET_KEY now token db = Raise e ->
        Chat.chat_open J SECRET_KEY now db websocket token m = m).
Proof.
  intros conns. split; [|split].
  - intros user Hres m'. subst m'. unfold Chat.chat_open. rewrite Hres.
    unfold Chat.chat_connected, SocketManager.send, SocketManager.connect. simpl.
    fold conns.
    split; [reflexivity|].
    split; [rewrite <- app_assoc; reflexivity|].
    split.
    + apply deliveries_receives. exists user.
      apply elem_of_app. right. apply list_elem_of_singleton. reflexivity.
    + intros ws u Hin. apply deliveries_receives. exists u.
      apply elem_of_app. left. exact Hin.
  - intros user Hin.
    destruct (list_remove_present _ _ Hin) as (l1 & l2 & Hconns & Hl1 & Hrem).
    exists (l1 ++ l2).
    split.
    { unfold Chat.chat_disconnected, SocketManager.disconnect. fold conns.
      rewrite Hrem. unfold SocketManager.send.
      rewrite left_event_is_updated_response. reflexivity. }
    split; [exact Hrem|].
    split.
    { rewrite Hconns, !length_app. simpl. lia. }
    split.
    { rewrite Hconns. intros Hnd Hrest.
      apply NoDup_app in Hnd as (_ & Hsep & Hnd2).
      apply NoDup_cons in Hnd2 as [Hl2 _].
      apply elem_of_app in Hrest as [H1|H2]; [apply Hl1, H1 | apply Hl2, H2]. }
    intros ws. apply deliveries_receives.
  - intros e Hres. unfold Chat.chat_open. rewrite Hres. reflexivity.
Qed.

Section RegistryCounting.
Import SocketManager Chat Registry.

Lemma list_count_snoc `{EqDecision A} (x y : A) (l : list A) :
  list_count x (l ++ [y]) = (list_count x l + if decide (y = x) then 1 else 0)%nat.
Proof.
  rewrite list_count_app, list_count_cons, list_count_nil.
  destruct (decide (y = x)); lia.
Qed.

Lemma apply_ops_app (xs ys : list op) (m : state) :
  apply_ops (xs ++ ys) m
  = match apply_ops xs m with
    | Some m' => apply_ops ys m'
    | None => None
    end.
Proof.
  revert m. induction xs as [|o xs IH]; intros m; [reflexivity|].
  simpl. destruct (apply_op o m); [apply IH|reflexivity].
Qed.

Lemma well_matched_prefix (ops : list op) (o : op) :
  well_matched (ops ++ [o]) -> well_matched ops.
Proof.
  intros Hwm pre post c Hops. apply (Hwm pre (post ++ [o]) c).
  rewrite Hops, app_assoc. reflexivity.
Qed.

Lemma n_connects_snoc (ops : list op) (o : op) :
  n_connects (ops ++ [o])
  = (n_connects ops + if is_connect o then 1 else 0)%nat.
Proof.
  unfold n_connects. rewrite filter_app, length_app.
  destruct o; [rewrite filter_cons_True by reflexivity
              |rewrite filter_cons_False by discriminate]; simpl; lia.
Qed.

Lemma n_disconnects_snoc (ops : list op) (o : op) :
  n_disconnects (ops ++ [o])
  = (n_disconnects ops + if is_connect o then 0 else 1)%nat.
Proof.
  unfold n_disconnects. rewrite filter_app, length_app.
  destruct o; [rewrite filter_cons_False by discriminate
              |rewrite filter_cons_True by reflexivity]; simpl; lia.
Qed.

(** What the registry holds after a well-matched sequence: per pair,
    the connects not yet undone. *)
Lemma registry_invariant (ops : list op) :
  well_matched ops ->
  exists m,
    apply_ops ops init = Some m
    /\ (forall c, (list_count c (active_connections m) + disconnects_of c ops
                   = connects_of c ops)%nat)
    /\ (length (active_connections m) + n_disconnects ops = n_connects ops)%nat.
Proof.
  induction ops as [|o ops IH] using rev_ind; intros Hwm.
  - exists init. split; [reflexivity|]. split; [intros c|]; reflexivity.
  - destruct (IH (well_matched_prefix _ _ Hwm)) as (m & Hrun & Hcount & Hlen).
    rewrite apply_ops_app, Hrun. simpl.
    rewrite n_connects_snoc, n_disconnects_snoc.
    unfold connects_of, disconnects_of in *.
    destruct o as [ws u | ws u]; simpl.
    + exists (connect ws u m). split; [reflexivity|]. simpl.
      split.
      * intros [ws' u']. specialize (Hcount (ws', u')). simpl in *.
        rewrite !list_count_snoc.
        destruct (decide ((ws, u) = (ws', u')));
          destruct (decide (Connect ws u = Connect ws' u'));
          destruct (decide (Connect ws u = Disconnect ws' u'));
          try congruence; lia.
      * rewrite length_app. simpl. lia.
    + pose proof (Hwm (ops ++ [Disconnect ws u]) [] (ws, u)
                      (eq_sym (app_nil_r _))) as Hle.
      unfold connects_of, disconnects_of in Hle. simpl in Hle.
      rewrite !list_count_snoc in Hle.
      rewrite decide_True in Hle by reflexivity.
      rewrite decide_False in Hle by discriminate.
      pose proof (Hcount (ws, u)) as Hwu. simpl in Hwu.
      assert (Hin : (ws, u) ∈ active_connections m)
        by (apply list_count_positive; lia).
      destruct (list_remove_present _ _ Hin) as (l1 & l2 & Hconns & _ & Hrem).
      unfold disconnect. rewrite Hrem.
      eexists. split; [reflexivity|]. simpl.
      split.
      * intros [ws' u']. specialize (Hcount (ws', u')). simpl in *.
        rewrite !list_count_snoc.
        rewrite Hconns in Hcount.
        rewrite list_count_app, list_count_cons in Hcount.
        rewrite list_count_app.
        destruct (decide ((ws, u) = (ws', u')));
          destruct (decide (Disconnect ws u = Connect ws' u'));
          destruct (decide (Disconnect ws u = Disconnect ws' u'));
          try congruence; lia.
      * rewrite Hconns in Hlen. rewrite length_app in *. simpl in Hlen. lia.
Qed.
End RegistryCounting.

Ltac count_cases :=
  rewrite ?list_count_cons, ?list_count_nil;
  repeat case_decide; try congruence; lia.

(** C8.  Starting from the empty registry, a sequence of connects and
    disconnects in which every disconnect is matched by an earlier,
    still registered connect runs without error and leaves exactly
    N - M connections registered, N and M being the numbers of connects
    and disconnects: every pair stands in the list once per connect not
    yet undone.  One [send] then puts exactly one message per registered
    connection on the wire, N - M in all; a websocket is sent the message
    if and only if it is registered, the one the message came in on
    included. *)
Theorem registry_counts (ops : list Chat.op) :
  Chat.well_matched ops ->
  exists m,
    Chat.apply_ops ops SocketManager.init = Some m
    /\ length (SocketManager.active_connections m)
       = (Registry.n_connects ops - Registry.n_disconnects ops)%nat
    /\ (forall c, list_count c (SocketManager.active_connections m)
                  = (Chat.connects_of c ops - Chat.disconnects_of c ops)%nat)
    /\ forall data,
        let out := SocketManager.deliveries data (SocketManager.active_connections m) in
        SocketManager.active_connections (SocketManager.send data m)
        = SocketManager.active_connections m
        /\ SocketManager.traffic (SocketManager.send data m)
           = SocketManager.traffic m ++ out
        /\ length out = (Registry.n_connects ops - Registry.n_disconnects ops)%nat
        /\ (forall ws data', In (SocketManager.Send_json ws data') out ->
              data' = data /\ exists user, (ws, user) ∈ SocketManager.active_connections m)
        /\ (forall ws user, (ws, user) ∈ SocketManager.active_connections m ->
              Registry.receives ws data out).
Proof.
  intros Hwm.
  destruct (registry_invariant ops Hwm) as (m & Hrun & Hcount & Hlen).
  exists m. split; [exact Hrun|].
  split; [lia|].
  split; [intros c; specialize (Hcount c); lia|].
  intros data out.
  split; [reflexivity|]. split; [reflexivity|].
  split; [unfold out, SocketManager.deliveries; rewrite length_map; lia|].
  split.
  - intros ws data' Hin.
    pose proof (deliveries_only _ _ _ _ Hin) as ->.
    split; [reflexivity|]. apply (deliveries_receives data), Hin.
  - intros ws user Hin. apply deliveries_receives. exists user. exact Hin.
Qed.

(** The theorem at work: alice, bob and carol connect, alice leaves in
    between; two connections remain and both get the message. *)
Lemma registry_counts_three_users :
  exists m,
    Chat.apply_ops
      [Chat.Connect 1%nat Policy.alice; Chat.Connect 2%nat Policy.bob;
       Chat.Disconnect 1%nat Policy.alice; Chat.Connect 3%nat Policy.carol]
      SocketManager.init = Some m
    /\ length (SocketManager.active_connections m) = 2%nat.
Proof.
  destruct (registry_counts
              [Chat.Connect 1%nat Policy.alice; Chat.Connect 2%nat Policy.bob;
               Chat.Disconnect 1%nat Policy.alice; Chat.Connect 3%nat Policy.carol])
    as (m & Hrun & Hlen & _).
  - intros pre post [ws u] Hops.
    unfold Chat.connects_of, Chat.disconnects_of. cbn [fst snd].
    destruct pre as [|o1 pre]; [rewrite !list_count_nil; lia|].
    injection Hops as <- Hops.
    destruct pre as [|o2 pre]; [count_cases|].
    injection Hops as <- Hops.
    destruct pre as [|o3 pre]; [count_cases|].
    injection Hops as <- Hops.
    destruct pre as [|o4 pre]; [count_cases|].
    injection Hops as <- Hops.
    destruct pre as [|o5 pre]; [count_cases|discriminate Hops].
  - exists m. split; [exact Hrun | exact Hlen].
Defined.

(** ** The code at work *)

Section Examples.
Import Services SocketManager Chat Registry.

Example isemail_plain : isemail "admin@observers.com" = true.
Proof. vm_compute. reflexivity. Qed.

Example isemail_dotted : isemail "first.last@mail.example.org" = true.
Proof. vm_compute. reflexivity. Qed.

Example isemail_username : isemail "admin" = false.
Proof. vm_compute. reflexivity. Qed.

Example isemail_short_tld : isemail "a@b.c" = false.
Proof. vm_compute. reflexivity. Qed.

Example isemail_no_local_part : isemail "@observers.com" = false.
Proof. vm_compute. reflexivity. Qed.

(** The class [[.-_]] is a range: it lets an equals sign through. *)
Example isemail_range_class : isemail "a=b@x.io" = true.
Proof. vm_compute. reflexivity. Qed.

Example isemail_trailing_newline :
  isemail ("a@b.cd" ++ String "010"%char EmptyString) = false.
Proof. vm_compute. reflexivity. Qed.

Example lookup_by_email :
  get_user_by_username_or_email_traced Policy.sample_db "bob@observers.com"
  = (Some Policy.bob, [User_email_eq "bob@observers.com"]).
Proof. vm_compute. reflexivity. Qed.

Example lookup_by_username :
  get_user_by_username_or_email_traced Policy.sample_db "bob"
  = (Some Policy.bob, [User_username_eq "bob"]).
Proof. vm_compute. reflexivity. Qed.

Example verify_own_hash :
  Hashing.verify_password Hashing.reference_bcrypt "admin"
    (Hashing.get_password_hash Hashing.reference_bcrypt
       "abcdefghijklmnopqrstuv" "admin") = Ok true.
Proof. vm_compute. reflexivity. Qed.

(** A one-hour token of alice, issued at time 1000: it resolves while
    it lasts; expired, under another key, without a subject or for an
    unknown subject it ends in the one [credentials_exception]. *)
Example token_runs :
  let J := SecurityToken.reference_jose in
  let token name :=
    SecurityToken.create_access_token J "key"
      {| SecurityToken.claim_sub := name; SecurityToken.claim_exp := None |}
      (Some 3600) 1000 in
  Dependencies.get_user J "key" 1060 (token (Some "alice")) Policy.sample_db
  = Ok Policy.alice
  /\ Dependencies.get_user J "key" 4601 (token (Some "alice")) Policy.sample_db
     = Raise Dependencies.credentials_exception
  /\ Dependencies.get_user J "other key" 1060 (token (Some "alice")) Policy.sample_db
     = Raise Dependencies.credentials_exception
  /\ Dependencies.get_user J "key" 1060 (token None) Policy.sample_db
     = Raise Dependencies.credentials_exception
  /\ Dependencies.get_user J "key" 1060 (token (Some "mallory")) Policy.sample_db
     = Raise Dependencies.credentials_exception.
Proof. vm_compute. repeat split; reflexivity. Qed.

Example admin_edits_both_fields :
  fst (Comments.update_comment 10
         {| cu_content := Given "moderated"; cu_is_answer := Given true |}
         Policy.sample_db Policy.root)
  = Comments.Returns
      (Policy.with_is_answer (Policy.with_content Policy.comment10 "moderated") true).
Proof. vm_compute. reflexivity. Qed.

Example admin_sends_null :
  Comments.update_comment 10
    {| cu_content := Null; cu_is_answer := Absent |}
    Policy.sample_db Policy.root
  = (Comments.Raises IntegrityError, Policy.sample_db).
Proof. vm_compute. reflexivity. Qed.

Example author_sends_null :
  Comments.update_comment 10
    {| cu_content := Null; cu_is_answer := Absent |}
    Policy.sample_db Policy.alice
  = (Comments.Returns_None, Policy.sample_db).
Proof. vm_compute. reflexivity. Qed.

Example author_edits_content_only :
  fst (Comments.update_comment 10
         {| cu_content := Given "edited"; cu_is_answer := Given true |}
         Policy.sample_db Policy.alice)
  = Comments.Returns (Policy.with_content Policy.comment10 "edited").
Proof. vm_compute. reflexivity. Qed.

Example question_author_marks_answer :
  fst (Comments.update_comment 10
         {| cu_content := Given "hijacked"; cu_is_answer := Given true |}
         Policy.sample_db Policy.bob)
  = Comments.Returns (Policy.with_is_answer Policy.comment10 true).
Proof. vm_compute. reflexivity. Qed.

Example stranger_changes_nothing :
  Comments.update_comment 10
    {| cu_content := Given "spam"; cu_is_answer := Given true |}
    Policy.sample_db Policy.carol
  = (Comments.Returns_None, Policy.sample_db).
Proof. vm_compute. reflexivity. Qed.

Example stranger_cannot_delete :
  Users.delete_user
    {| Users.du_user_id := 1; Users.du_current_user := Policy.bob |} Policy.sample_db
  = (Raise Decorators.not_that_user, Policy.sample_db).
Proof. vm_compute. reflexivity. Qed.

Example owner_deletes_own_account :
  fst (Users.delete_user
         {| Users.du_user_id := 2; Users.du_current_user := Policy.bob |}
         Policy.sample_db)
  = Ok (Users.Response_status 204).
Proof. vm_compute. reflexivity. Qed.

(** Bob and alice open the chat, a third client comes with a forged
    token, alice sends a frame and leaves. *)
Example chat_session :
  run SecurityToken.reference_jose "key" 1060 Policy.sample_db
    [Open 2%nat (Policy.sample_query "bob");
     Open 1%nat (Policy.sample_query "alice");
     Open 3%nat "Bearer forged";
     Frame 1%nat (JObj [("foo", JStr "bar")]);
     Closed 1%nat Policy.alice]
    init
  = Some {| active_connections := [(2%nat, Policy.bob)];
            traffic :=
              [Accept 2%nat;
               Send_json 2%nat (connected_event Policy.bob);
               Accept 1%nat;
               Send_json 2%nat (connected_event Policy.alice);
               Send_json 1%nat (connected_event Policy.alice);
               Send_json 2%nat (JObj [("foo", JStr "bar")]);
               Send_json 1%nat (JObj [("foo", JStr "bar")]);
               Send_json 2%nat (left_event Policy.alice)] |}.
Proof. vm_compute. reflexivity. Qed.
End Examples.

(** * Further properties *)

(** ** Access policy: deleting articles and comments *)

(** X1.  Only an Admin deletes an article.  Any other actor gets the 403
    [not_an_admin] and the database is left as it was.  For an Admin a
    missing article is a 404; an existing one is gone afterwards, and
    every other article, the users and the comments are untouched. *)
Theorem only_admin_deletes_article (actor : User) (id : Z) (db : Db) :
  let kw := {| ArticleRoutes.da_article_id := id;
               ArticleRoutes.da_current_user := actor |} in
  let r := ArticleRoutes.delete_article kw db in
  (~ Policy.is_admin actor -> r = (Raise Decorators.not_an_admin, db))
  /\ (Policy.is_admin actor -> db_articles db !! id = None ->
      r = (Raise (Crud.does_not_exist "Article"), db))
  /\ (Policy.is_admin actor -> is_Some (db_articles db !! id) ->
      fst r = Ok (Users.Response_status 204)
      /\ db_articles (snd r) !! id = None
      /\ (forall j, j ≠ id -> db_articles (snd r) !! j = db_articles db !! j)
      /\ db_users (snd r) = db_users db
      /\ db_comments (snd r) = db_comments db).
Proof.
  intros kw r. subst r kw.
  unfold ArticleRoutes.delete_article, Decorators.raise_403_if_not_admin,
    ArticleRoutes.delete_article_body, ArticleRoutes.delete_article_object,
    Crud.get_object. simpl.
  destruct (String.eqb (role_title (user_role actor)) "Admin") eqn:Hadm; simpl.
  - apply String.eqb_eq in Hadm.
    split; [intros Hn; contradiction|].
    split.
    + intros _ Hnone. rewrite Hnone. reflexivity.
    + intros _ [a Ha]. rewrite Ha. simpl.
      split; [reflexivity|]. split; [apply lookup_delete_eq|].
      split; [|split; reflexivity].
      intros j Hj. apply lookup_delete_ne. congruence.
  - apply String.eqb_neq in Hadm.
    split; [reflexivity|]. split; intros Hy; contradiction.
Qed.

(** X2.  A comment is deleted for an Admin and for its author, and for
    nobody else: the author of the question it stands under gets the 403
    [not_author_of_comment] like any stranger, and the database is left
    as it was.  A missing comment is a 404 for everybody.  A deletion
    removes that comment and nothing else. *)
Theorem comment_delete_policy (actor : User) (id : Z) (db : Db) :
  let r := CommentRoutes.delete_question id db actor in
  (db_comments db !! id = None ->
   r = (Raise (Crud.does_not_exist "Comment"), db))
  /\ (forall c, db_comments db !! id = Some c ->
      (Policy.is_admin actor \/ user_id actor = comment_author_id c ->
       fst r = Ok (Users.Response_status 204)
       /\ db_comments (snd r) !! id = None
       /\ (forall j, j ≠ id -> db_comments (snd r) !! j = db_comments db !! j)
       /\ db_users (snd r) = db_users db
       /\ db_articles (snd r) = db_articles db)
      /\ (~ (Policy.is_admin actor \/ user_id actor = comment_author_id c) ->
          r = (Raise CommentRoutes.not_author_of_comment, db))).
Proof.
  intros r. subst r.
  unfold CommentRoutes.delete_question, CommentRoutes.delete_and_respond,
    CommentRoutes.delete_comment_object, Crud.get_object.
  assert (Hdel : forall c, db_comments db !! id = Some c ->
            let r := (Ok (Users.Response_status HTTP_204_NO_CONTENT),
                      Crud.set_comments db (delete id (db_comments db))) in
            fst r = Ok (Users.Response_status 204)
            /\ db_comments (snd r) !! id = None
            /\ (forall j, j ≠ id -> db_comments (snd r) !! j = db_comments db !! j)
            /\ db_users (snd r) = db_users db
            /\ db_articles (snd r) = db_articles db).
  { intros c Hc. simpl. split; [reflexivity|]. split; [apply lookup_delete_eq|].
    split; [|split; reflexivity].
    intros j Hj. apply lookup_delete_ne. congruence. }
  destruct (String.eqb (role_title (user_role actor)) "Admin") eqn:Hadm.
  - apply String.eqb_eq in Hadm. split.
    + intros Hnone. rewrite Hnone. reflexivity.
    + intros c Hc. rewrite Hc. split.
      * intros _. exact (Hdel c Hc).
      * intros Hn. exfalso. apply Hn. left. exact Hadm.
  - apply String.eqb_neq in Hadm. split.
    + intros Hnone. rewrite Hnone. reflexivity.
    + intros c Hc. rewrite Hc.
      destruct (user_id actor =? comment_author_id c) eqn:Hown.
      * split; [intros _; exact (Hdel c Hc)|].
        intros Hn. exfalso. apply Hn. right. apply Z.eqb_eq, Hown.
      * apply Z.eqb_neq in Hown. split; [|reflexivity].
        intros [Hy | Hy]; contradiction.
Qed.

Section CommentLocality.

(** The trace an edit of comment [id] may leave in the database. *)
Let local_edit (id : Z) (db db' : Db) : Prop :=
  db_users db' = db_users db
  /\ db_articles db' = db_articles db
  /\ (forall j, j ≠ id -> db_comments db' !! j = db_comments db !! j)
  /\ (db_comments db !! id = None -> db_comments db' !! id = None)
  /\ (forall c, db_comments db !! id = Some c ->
        exists c', db_comments db' !! id = Some c'
                   /\ comment_id c' = comment_id c
                   /\ comment_author_id c' = comment_author_id c
                   /\ comment_question_id c' = comment_question_id c
                   /\ comment_question_author_id c' = comment_question_author_id c).

Lemma local_edit_refl (id : Z) (db : Db) : local_edit id db db.
Proof.
  unfold local_edit.
  split; [reflexivity|]. split; [reflexivity|].
  split; [reflexivity|]. split; [auto|].
  intros c Hc. exists c. auto.
Qed.

Lemma update_comment_object_local (db : Db) (id : Z) (so : CommentUpdate) :
  local_edit id db (snd (Comments.of_result (Crud.update_comment_object db id so))).
Proof.
  unfold Crud.update_comment_object, Crud.get_object.
  destruct (db_comments db !! id) as [c|] eqn:Hc; simpl;
    [|apply local_edit_refl].
  destruct (is_null (cu_content so) || is_null (cu_is_answer so));
    [apply local_edit_refl|].
  unfold local_edit. simpl.
  split; [reflexivity|]. split; [reflexivity|].
  split; [intros j Hj; apply lookup_insert_ne; congruence|].
  split; [intros Hn; congruence|].
  intros c0 Hc0. assert (c0 = c) as -> by congruence.
  eexists. split; [apply lookup_insert_eq|].
  simpl. auto.
Qed.

(** X3.  Whoever calls [update_comment] and whatever the request holds,
    the call changes at most the comment it names: the users, the
    articles and every other comment are as before, no comment is
    created, and the comment keeps its id, its author and its question. *)
Theorem comment_edit_is_local
        (actor : User) (id : Z) (req : CommentUpdate) (db : Db) :
  let db' := snd (Comments.update_comment id req db actor) in
  db_users db' = db_users db
  /\ db_articles db' = db_articles db
  /\ (forall j, j ≠ id -> db_comments db' !! j = db_comments db !! j)
  /\ (db_comments db !! id = None -> db_comments db' !! id = None)
  /\ (forall c, db_comments db !! id = Some c ->
        exists c', db_comments db' !! id = Some c'
                   /\ comment_id c' = comment_id c
                   /\ comment_author_id c' = comment_author_id c
                   /\ comment_question_id c' = comment_question_id c
                   /\ comment_question_author_id c' = comment_question_author_id c).
Proof.
  intros db'. subst db'. change (local_edit id db
    (snd (Comments.update_comment id req db actor))).
  unfold Comments.update_comment.
  destruct (String.eqb (role_title (user_role actor)) "Admin");
    [apply update_comment_object_local|].
  destruct (Crud.get_object "Comment" (db_comments db) id) as [c|e];
    [|apply local_edit_refl].
  destruct (Crud.str_truthy (value_of (cu_content req))
            && (user_id actor =? comment_author_id c));
    [apply update_comment_object_local|].
  destruct (match value_of (cu_is_answer req) with Some _ => true | None => false end
            && (user_id actor =? comment_question_author_id c));
    [apply update_comment_object_local|apply local_edit_refl].
Qed.
End CommentLocality.

(** ** Deleting a user *)

(** X4.  When an Admin or the user in person deletes an existing user,
    the call answers 204 and the user's row is gone; no comment that is
    left was written by that user or stands under one of that user's
    questions, and every other comment is still there; no article counts
    that user among its likes or dislikes, and the ratings of the others
    are kept in their order; the other users are untouched. *)
Theorem delete_user_leaves_no_trace
        (actor : User) (target : Z) (db : Db) (u : User) :
  Policy.admin_or_owner actor target ->
  db_users db !! target = Some u ->
  let r := Users.delete_user
             {| Users.du_user_id := target; Users.du_current_user := actor |} db in
  fst r = Ok (Users.Response_status 204)
  /\ db_users (snd r) !! target = None
  /\ (forall k, k ≠ target -> db_users (snd r) !! k = db_users db !! k)
  /\ (forall k c, db_comments (snd r) !! k = Some c <->
        db_comments db !! k = Some c
        /\ comment_author_id c ≠ target
        /\ comment_question_author_id c ≠ target)
  /\ (forall k, db_articles (snd r) !! k
                = (fun a => {| article_id := article_id a;
                               article_likes := Rating.without target (article_likes a);
                               article_dislikes :=
                                 Rating.without target (article_dislikes a) |})
                  <$> db_articles db !! k)
  /\ (forall k a, db_articles (snd r) !! k = Some a ->
        (target ∉ article_likes a) /\ (target ∉ article_dislikes a)).
Proof.
  intros Hperm Hu r. subst r.
  unfold Users.delete_user.
  erewrite no_access_granted by eauto.
  unfold Users.delete_user_body, Crud.delete_user_object, Crud.get_object. simpl.
  rewrite Hu. simpl.
  split; [reflexivity|]. split; [apply lookup_delete_eq|].
  split; [intros k Hk; apply lookup_delete_ne; congruence|].
  split.
  { intros k c. rewrite map_lookup_filter_Some. simpl. tauto. }
  split.
  { intros k. rewrite lookup_fmap. reflexivity. }
  intros k a. rewrite lookup_fmap.
  destruct (db_articles db !! k) as [a0|]; simpl; [|discriminate].
  intros [= <-]. simpl. split; apply not_in_without.
Qed.

(** The theorem at work: bob deletes his account.  Comment 10, which
    stands under his question, goes with it; comment 11 stays. *)
Lemma delete_user_leaves_no_trace_bob :
  let r := Users.delete_user
             {| Users.du_user_id := 2; Users.du_current_user := Policy.bob |}
             Policy.sample_db in
  db_users (snd r) !! 2 = None
  /\ db_comments (snd r) !! 10 = None
  /\ db_comments (snd r) !! 11 = Some Policy.comment11.
Proof.
  pose proof (delete_user_leaves_no_trace Policy.bob 2 Policy.sample_db Policy.bob
                (or_intror eq_refl) eq_refl) as (_ & Hgone & _ & Hcomments & _).
  split; [exact Hgone|]. split.
  - destruct (db_comments
                (snd (Users.delete_user
                        {| Users.du_user_id := 2; Users.du_current_user := Policy.bob |}
                        Policy.sample_db)) !! 10) as [c|] eqn:Hc; [|reflexivity].
    apply Hcomments in Hc as (Hc & _ & Hq).
    vm_compute in Hc. injection Hc as <-. exfalso. apply Hq. reflexivity.
  - apply Hcomments. split; [reflexivity|]. split; discriminate.
Defined.

(** ** The user table keeps its keys and its unique columns *)

Section UsersOk.
Import UserTable.

Lemma users_ok_insert (db : Db) (uid : Z) (new : User) :
  users_ok db ->
  user_id new = uid ->
  (forall k u, k ≠ uid -> db_users db !! k = Some u ->
     user_username u ≠ user_username new /\ user_email u ≠ user_email new) ->
  users_ok (Crud.set_users db (<[uid := new]> (db_users db))).
Proof.
  intros (Hkey & Hname & Hmail) Hid Hothers.
  unfold users_ok, keyed, unique_usernames, unique_emails. simpl.
  split; [|split].
  - intros k u Hu. apply lookup_insert_Some in Hu as [[<- <-]|[Hne Hu]];
      [exact Hid | exact (Hkey _ _ Hu)].
  - intros k1 k2 u1 u2 H1 H2 Heq.
    apply lookup_insert_Some in H1 as [[<- <-]|[Hne1 H1]];
      apply lookup_insert_Some in H2 as [[<- <-]|[Hne2 H2]].
    + reflexivity.
    + destruct (Hothers k2 u2 (not_eq_sym Hne2) H2) as [Hn _]. congruence.
    + destruct (Hothers k1 u1 (not_eq_sym Hne1) H1) as [Hn _]. congruence.
    + exact (Hname _ _ _ _ H1 H2 Heq).
  - intros k1 k2 u1 u2 H1 H2 Heq.
    apply lookup_insert_Some in H1 as [[<- <-]|[Hne1 H1]];
      apply lookup_insert_Some in H2 as [[<- <-]|[Hne2 H2]].
    + reflexivity.
    + destruct (Hothers k2 u2 (not_eq_sym Hne2) H2) as [_ Hn]. congruence.
    + destruct (Hothers k1 u1 (not_eq_sym Hne1) H1) as [_ Hn]. congruence.
    + exact (Hmail _ _ _ _ H1 H2 Heq).
Qed.

Lemma sample_users (k : Z) (u : User) :
  db_users Policy.sample_db !! k = Some u ->
  (k, u) ∈ [(1, Policy.alice); (2, Policy.bob); (3, Policy.carol); (4, Policy.root)].
Proof.
  unfold Policy.sample_db. simpl. intros H.
  repeat (apply lookup_insert_Some in H as [[<- <-]|[_ H]];
          [set_solver|]).
  rewrite lookup_empty in H. discriminate H.
Qed.

Lemma sample_db_users_ok : users_ok Policy.sample_db.
Proof.
  split; [|split].
  - intros k u Hu. apply sample_users in Hu.
    repeat (apply elem_of_cons in Hu as [[= -> ->]|Hu]; [reflexivity|]).
    inversion Hu.
  - intros k1 k2 u1 u2 H1 H2. apply sample_users in H1, H2.
    repeat (apply elem_of_cons in H1 as [[= -> ->]|H1];
            [repeat (apply elem_of_cons in H2 as [[= -> ->]|H2];
                     [vm_compute; congruence|]); inversion H2|]).
    inversion H1.
  - intros k1 k2 u1 u2 H1 H2. apply sample_users in H1, H2.
    repeat (apply elem_of_cons in H1 as [[= -> ->]|H1];
            [repeat (apply elem_of_cons in H2 as [[= -> ->]|H2];
                     [vm_compute; congruence|]); inversion H2|]).
    inversion H1.
Qed.
End UsersOk.

(** X5.  [crud.update_user] keeps the user table in order: when every
    row sits under its own key and usernames and emails are unique
    before the call, they are so after it (the email of the request
    being, as an [EmailStr], not empty).  A call that raises leaves the
    database as it was.  A call that returns has changed the row of
    [user_id] only, and of that row neither the id, nor the username,
    nor the role; the new email is stored as sent, and a new non-empty
    password is stored as its hash. *)
Theorem update_user_keeps_users_ok
        (hash : string -> string) (db : Db) (uid : Z) (user : UserUpdate) :
  UserTable.users_ok db ->
  value_of (uu_email user) ≠ Some "" ->
  let r := Crud.update_user hash db uid user in
  UserTable.users_ok (snd r)
  /\ (forall e, fst r = Raise e -> snd r = db)
  /\ db_comments (snd r) = db_comments db
  /\ db_articles (snd r) = db_articles db
  /\ (forall k, k ≠ uid -> db_users (snd r) !! k = db_users db !! k)
  /\ (forall u', fst r = Ok u' ->
        exists old,
          db_users db !! uid = Some old
          /\ db_users (snd r) !! uid = Some u'
          /\ user_id u' = uid
          /\ user_username u' = user_username old
          /\ user_role u' = user_role old
          /\ user_email u' = default (user_email old) (value_of (uu_email user))
          /\ (forall p, value_of (uu_password user) = Some p -> p ≠ "" ->
                user_password u' = hash p)).
Proof.
  intros Hok Hemail r. subst r.
  unfold Crud.update_user, Crud.get_object.
  destruct (db_users db !! uid) as [old|] eqn:Hold; simpl.
  2:{ split; [exact Hok|]. split; [reflexivity|].
      split; [reflexivity|]. split; [reflexivity|]. split; [reflexivity|].
      intros u' [=]. }
  lazymatch goal with
  | |- context [if ?t then (Raise Crud.email_exists, _) else _] =>
      destruct t eqn:Htaken
  end; simpl.
  { split; [exact Hok|]. split; [reflexivity|].
    split; [reflexivity|]. split; [reflexivity|]. split; [reflexivity|].
    intros u' [=]. }
  destruct (is_null (uu_email user) || is_null (uu_password user)
            || is_null (uu_profile_image user)) eqn:Hnull; simpl.
  { split; [exact Hok|]. split; [reflexivity|].
    split; [reflexivity|]. split; [reflexivity|]. split; [reflexivity|].
    intros u' [=]. }
  pose proof Hok as (Hkey & Hname & Hmail).
  split.
  { apply users_ok_insert; [exact Hok | exact (Hkey _ _ Hold) |].
    intros k u Hne Hu. simpl. split.
    - intros Heq. apply Hne. exact (Hname _ _ _ _ Hu Hold Heq).
    - destruct (uu_email user) as [| |e] eqn:He; simpl.
      + intros Heq. apply Hne. exact (Hmail _ _ _ _ Hu Hold Heq).
      + discriminate Hnull.
      + intros Heq.
        assert (Hne_e : e ≠ "") by (simpl in Hemail; congruence).
        apply String.eqb_neq in Hne_e. simpl in Htaken. rewrite Hne_e in Htaken.
        simpl in Htaken.
        destruct (Crud.first_user (fun u0 => String.eqb (user_email u0) e) db)
          as [u0|] eqn:Hfirst.
        * apply first_user_Some in Hfirst as [He0 [k0 Hu0]].
          apply String.eqb_eq in He0.
          apply negb_false_iff, Z.eqb_eq in Htaken.
          rewrite (Hkey _ _ Hu0) in Htaken. subst k0.
          apply Hne. apply (Hmail _ _ _ _ Hu Hu0). congruence.
        * pose proof (first_user_None _ _ Hfirst _ _ Hu) as Hf.
          apply String.eqb_neq in Hf. contradiction. }
  split; [intros e [=]|].
  split; [reflexivity|]. split; [reflexivity|].
  split; [intros k Hk; apply lookup_insert_ne; congruence|].
  intros u' [= <-]. exists old. split; [reflexivity|].
  split; [apply lookup_insert_eq|]. simpl.
  split; [exact (Hkey _ _ Hold)|].
  split; [reflexivity|]. split; [reflexivity|]. split; [reflexivity|].
  intros p -> Hp. simpl. apply String.eqb_neq in Hp. rewrite Hp. reflexivity.
Qed.

(** The theorem at work: alice changes her email and her password. *)
Lemma update_user_keeps_users_ok_alice :
  UserTable.users_ok
    (snd (Crud.update_user (fun p => ("hash of " ++ p)%string) Policy.sample_db 1
            {| uu_email := Given "alice@example.org"; uu_password := Given "secret";
               uu_profile_image := Absent |})).
Proof.
  apply (update_user_keeps_users_ok (fun p => ("hash of " ++ p)%string)
           Policy.sample_db 1
           {| uu_email := Given "alice@example.org"; uu_password := Given "secret";
              uu_profile_image := Absent |}).
  - exact sample_db_users_ok.
  - simpl. discriminate.
Defined.

(** X6.  [crud.create_user] keeps the user table in order and refuses
    what would break it: when some row already carries the username or
    the email of the request the call raises the 403 [user_exists], and
    no call that raises changes the database.  A call that returns has
    added one row under the new key, with the hash of the password in
    place of the password and the role that [role_id] names; from then on
    the lookup by username-or-email finds that row under its username,
    if the username does not look like an email address, and under its
    email, if the email matches the pattern. *)
Theorem create_user_keeps_users_ok
        (hash : string -> string) (roles : gmap Z Role) (new_id : Z)
        (db : Db) (user : Registration.UserCreate) :
  UserTable.users_ok db ->
  db_users db !! new_id = None ->
  let r := Registration.create_user hash roles new_id db user in
  UserTable.users_ok (snd r)
  /\ (forall e, fst r = Raise e -> snd r = db)
  /\ (forall k u, db_users db !! k = Some u ->
        user_username u = Registration.uc_username user
        \/ user_email u = Registration.uc_email user ->
        r = (Raise Registration.user_exists, db))
  /\ (forall u', fst r = Ok u' ->
        snd r = Crud.set_users db (<[new_id := u']> (db_users db))
        /\ u' = {| user_id := new_id;
                   user_username := Registration.uc_username user;
                   user_email := Registration.uc_email user;
                   user_password := hash (Registration.uc_password user);
                   user_role := user_role u' |}
        /\ roles !! Registration.uc_role_id user = Some (user_role u')
        /\ (Services.isemail (Registration.uc_username user) = false ->
            Services.get_user_by_username_or_email (snd r)
              (Registration.uc_username user) = Some u')
        /\ (Services.isemail (Registration.uc_email user) = true ->
            Services.get_user_by_username_or_email (snd r)
              (Registration.uc_email user) = Some u')).
Proof.
  intros Hok Hfresh r. subst r. unfold Registration.create_user.
  set (P := fun u : User =>
              String.eqb (user_username u) (Registration.uc_username user)
              || String.eqb (user_email u) (Registration.uc_email user)).
  destruct (Crud.first_user P db) as [u0|] eqn:Hfirst; simpl.
  { split; [exact Hok|]. split; [reflexivity|]. split; [reflexivity|].
    intros u' [=]. }
  assert (Hnone : forall k u, db_users db !! k = Some u ->
            user_username u ≠ Registration.uc_username user
            /\ user_email u ≠ Registration.uc_email user).
  { intros k u Hu. pose proof (first_user_None _ _ Hfirst _ _ Hu) as HP.
    unfold P in HP. apply orb_false_iff in HP as [H1 H2].
    apply String.eqb_neq in H1, H2. split; assumption. }
  unfold Crud.get_object.
  destruct (roles !! Registration.uc_role_id user) as [role|] eqn:Hrole; simpl.
  2:{ split; [exact Hok|]. split; [reflexivity|]. split.
      - intros k u Hu [Hn | Hm]; destruct (Hnone _ _ Hu); contradiction.
      - intros u' [=]. }
  split.
  { apply users_ok_insert; [exact Hok | reflexivity |].
    intros k u _ Hu. simpl. exact (Hnone _ _ Hu). }
  split; [intros e [=]|].
  split.
  { intros k u Hu [Hn | Hm]; destruct (Hnone _ _ Hu); contradiction. }
  intros u' [= <-]. simpl.
  split; [reflexivity|]. split; [reflexivity|]. split; [reflexivity|].
  unfold Services.get_user_by_username_or_email,
    Services.get_user_by_username_or_email_traced,
    Services.get_object_by_expression.
  split; intros Hshape; rewrite Hshape; simpl.
  - apply (first_user_unique _ _ new_id); simpl.
    + apply lookup_insert_eq.
    + apply String.eqb_refl.
    + intros k' u' Hu' Hname. apply String.eqb_eq in Hname.
      apply lookup_insert_Some in Hu' as [[_ <-]|[_ Hu']]; [reflexivity|].
      destruct (Hnone _ _ Hu'). contradiction.
  - apply (first_user_unique _ _ new_id); simpl.
    + apply lookup_insert_eq.
    + apply String.eqb_refl.
    + intros k' u' Hu' Hmail. apply String.eqb_eq in Hmail.
      apply lookup_insert_Some in Hu' as [[_ <-]|[_ Hu']]; [reflexivity|].
      destruct (Hnone _ _ Hu'). contradiction.
Qed.

(** The theorem at work: dave registers with the sample users. *)
Lemma create_user_keeps_users_ok_dave :
  UserTable.users_ok
    (snd (Registration.create_user (fun p => ("hash of " ++ p)%string)
            (list_to_map [(1, Policy.role_admin); (2, Policy.role_user)]) 9
            Policy.sample_db
            {| Registration.uc_username := "dave";
               Registration.uc_email := "dave@observers.com";
               Registration.uc_password := "secret";
               Registration.uc_role_id := 2 |})).
Proof.
  apply (create_user_keeps_users_ok (fun p => ("hash of " ++ p)%string)
           (list_to_map [(1, Policy.role_admin); (2, Policy.role_user)]) 9
           Policy.sample_db
           {| Registration.uc_username := "dave";
              Registration.uc_email := "dave@observers.com";
              Registration.uc_password := "secret";
              Registration.uc_role_id := 2 |}).
  - exact sample_db_users_ok.
  - reflexivity.
Defined.

(** ** Logging in *)

(** X7.  The token endpoint answers an unknown name and a wrong password
    with the same 401 [incorrect_credentials]; an exception of the
    password check passes through it; a token is issued only when a row
    was found and its stored hash verified the password.  The token then
    carries the username of that row, also when the name given was its
    email, and an expiry 3600 seconds after the call. *)
Theorem login_outcomes
        (J : SecurityToken.Jose) (SECRET_KEY : string) (B : Hashing.Bcrypt)
        (now : Z) (db : Db) (username password : string) :
  let r := Login.login_for_access_token J SECRET_KEY B now db username password in
  let found := Services.get_user_by_username_or_email db username in
  (found = None -> r = Raise Login.incorrect_credentials)
  /\ (forall u, found = Some u ->
        Hashing.verify_password B password (user_password u) = Ok false ->
        r = Raise Login.incorrect_credentials)
  /\ (forall u e, found = Some u ->
        Hashing.verify_password B password (user_password u) = Raise e ->
        r = Raise e)
  /\ (forall u, found = Some u ->
        Hashing.verify_password B password (user_password u) = Ok true ->
        r = Ok {| Login.access_token :=
                    SecurityToken.jwt_encode J (UserTable.login_claims u now)
                      SECRET_KEY "HS256";
                  Login.token_type := "bearer" |})
  /\ (forall t, r = Ok t ->
        exists u, found = Some u
                  /\ Hashing.verify_password B password (user_password u) = Ok true).
Proof.
  intros r found. subst r found.
  unfold Login.login_for_access_token, Login.authenticate_user.
  destruct (Services.get_user_by_username_or_email db username) as [u|].
  - split; [discriminate|].
    split; [intros u0 [= <-] ->; reflexivity|].
    split; [intros u0 e [= <-] ->; reflexivity|].
    split; [intros u0 [= <-] ->; reflexivity|].
    intros t.
    destruct (Hashing.verify_password B password (user_password u))
      as [[|]|e] eqn:Hv; try discriminate.
    intros _. exists u. split; [reflexivity | exact Hv].
  - split; [reflexivity|].
    split; [discriminate|]. split; [discriminate|]. split; [discriminate|].
    discriminate.
Qed.

Section LoginRoundTrip.
Import UserTable.

Lemma authenticate_user_found (B : Hashing.Bcrypt) (db : Db)
      (username password : string) (u : User) :
  Login.authenticate_user B db username password = Ok (Some u) ->
  Services.get_user_by_username_or_email db username = Some u
  /\ Hashing.verify_password B password (user_password u) = Ok true.
Proof.
  unfold Login.authenticate_user.
  destruct (Services.get_user_by_username_or_email db username) as [u0|];
    [|discriminate].
  destruct (Hashing.verify_password B password (user_password u0))
    as [[|]|e] eqn:Hv; try discriminate.
  intros [= <-]. split; [reflexivity | exact Hv].
Qed.

Lemma lookup_returns_row (db : Db) (s : string) (u : User) :
  Services.get_user_by_username_or_email db s = Some u ->
  exists k, db_users db !! k = Some u.
Proof.
  unfold Services.get_user_by_username_or_email,
    Services.get_user_by_username_or_email_traced,
    Services.get_object_by_expression.
  destruct (Services.isemail s); simpl; intros H;
    apply first_user_Some in H as [_ Hk]; exact Hk.
Qed.

Lemma lookup_own_username (db : Db) (k : Z) (u : User) :
  unique_usernames db ->
  db_users db !! k = Some u ->
  Services.isemail (user_username u) = false ->
  Services.get_user_by_username_or_email db (user_username u) = Some u.
Proof.
  intros Hname Hu Hshape.
  unfold Services.get_user_by_username_or_email,
    Services.get_user_by_username_or_email_traced,
    Services.get_object_by_expression.
  rewrite Hshape. simpl.
  apply (first_user_unique _ _ k); simpl.
  - exact Hu.
  - apply String.eqb_refl.
  - intros k' u' Hu' Heq. apply String.eqb_eq in Heq.
    pose proof (Hname _ _ _ _ Hu' Hu Heq) as ->. congruence.
Qed.
End LoginRoundTrip.

(** X8.  A token obtained at login resolves to the user who logged in:
    when usernames are unique, the username of the authenticated row
    does not look like an email address, and the token library gives
    back at time [now'] the claims it signed, [get_user] on the issued
    token returns that row. *)
Theorem login_token_resolves
        (J : SecurityToken.Jose) (SECRET_KEY : string) (B : Hashing.Bcrypt)
        (now now' : Z) (db : Db) (username password : string) (u : User) :
  UserTable.users_ok db ->
  Login.authenticate_user B db username password = Ok (Some u) ->
  Services.isemail (user_username u) = false ->
  SecurityToken.jwt_decode J
    (SecurityToken.jwt_encode J (UserTable.login_claims u now) SECRET_KEY
       SecurityToken.ALGORITHM)
    SECRET_KEY [SecurityToken.ALGORITHM] now'
  = inr (UserTable.login_claims u now) ->
  exists t,
    Login.login_for_access_token J SECRET_KEY B now db username password = Ok t
    /\ Dependencies.get_user J SECRET_KEY now' (Login.access_token t) db = Ok u.
Proof.
  intros (_ & Hname & _) Hauth Hshape Hlib.
  unfold Login.login_for_access_token. rewrite Hauth.
  eexists. split; [reflexivity|]. simpl.
  unfold Dependencies.get_user, SecurityToken.create_access_token. simpl.
  fold (UserTable.login_claims u now).
  change (now + SecurityToken.minutes SecurityToken.ACCESS_TOKEN_EXPIRE_MINUTES)
    with (now + 3600).
  fold (UserTable.login_claims u now). rewrite Hlib. simpl.
  apply authenticate_user_found in Hauth as [Hfound _].
  destruct (lookup_returns_row _ _ _ Hfound) as [k Hk].
  rewrite (lookup_own_username _ _ _ Hname Hk Hshape). reflexivity.
Qed.

Lemma login_db_users (k : Z) (u : User) :
  db_users UserTable.login_db !! k = Some u ->
  (k, u) ∈ [(1, UserTable.with_password Policy.alice);
            (2, UserTable.with_password Policy.bob); (5, UserTable.eve)].
Proof.
  unfold UserTable.login_db. simpl. intros H.
  repeat (apply lookup_insert_Some in H as [[<- <-]|[_ H]];
          [set_solver|]).
  rewrite lookup_empty in H. discriminate H.
Qed.

Lemma login_db_users_ok : UserTable.users_ok UserTable.login_db.
Proof.
  split; [|split].
  - intros k u Hu. apply login_db_users in Hu.
    repeat (apply elem_of_cons in Hu as [[= -> ->]|Hu]; [reflexivity|]).
    inversion Hu.
  - intros k1 k2 u1 u2 H1 H2. apply login_db_users in H1, H2.
    repeat (apply elem_of_cons in H1 as [[= -> ->]|H1];
            [repeat (apply elem_of_cons in H2 as [[= -> ->]|H2];
                     [vm_compute; congruence|]); inversion H2|]).
    inversion H1.
  - intros k1 k2 u1 u2 H1 H2. apply login_db_users in H1, H2.
    repeat (apply elem_of_cons in H1 as [[= -> ->]|H1];
            [repeat (apply elem_of_cons in H2 as [[= -> ->]|H2];
                     [vm_compute; congruence|]); inversion H2|]).
    inversion H1.
Qed.

(** The theorem at work: alice logs in with her email at time 1000 and
    presents the token ten minutes later. *)
Lemma login_token_resolves_alice :
  exists t,
    Login.login_for_access_token SecurityToken.reference_jose "key"
      Hashing.reference_bcrypt 1000 UserTable.login_db
      "alice@observers.com" "secret" = Ok t
    /\ Dependencies.get_user SecurityToken.reference_jose "key" 1600
         (Login.access_token t) UserTable.login_db
       = Ok (UserTable.with_password Policy.alice).
Proof.
  apply (login_token_resolves SecurityToken.reference_jose "key"
           Hashing.reference_bcrypt 1000 1600 UserTable.login_db
           "alice@observers.com" "secret" (UserTable.with_password Policy.alice)).
  - exact login_db_users_ok.
  - vm_compute. reflexivity.
  - vm_compute. reflexivity.
  - vm_compute. reflexivity.
Defined.

(** X9.  When the username of the authenticated row has the shape of
    an email address, the token issued for it is resolved against the
    email column: [get_user] returns the row that has this string as its
    email, whoever that is, and raises the 401 when no row has. *)
Theorem email_shaped_username_resolves_by_email
        (J : SecurityToken.Jose) (SECRET_KEY : string) (B : Hashing.Bcrypt)
        (now now' : Z) (db : Db) (username password : string) (u : User) :
  Login.authenticate_user B db username password = Ok (Some u) ->
  Services.isemail (user_username u) = true ->
  SecurityToken.jwt_decode J
    (SecurityToken.jwt_encode J (UserTable.login_claims u now) SECRET_KEY
       SecurityToken.ALGORITHM)
    SECRET_KEY [SecurityToken.ALGORITHM] now'
  = inr (UserTable.login_claims u now) ->
  exists t,
    Login.login_for_access_token J SECRET_KEY B now db username password = Ok t
    /\ Dependencies.get_user J SECRET_KEY now' (Login.access_token t) db
       = match Services.get_object_by_expression db
                 (Services.User_email_eq (user_username u)) with
         | Some v => Ok v
         | None => Raise Dependencies.credentials_exception
         end.
Proof.
  intros Hauth Hshape Hlib.
  unfold Login.login_for_access_token. rewrite Hauth.
  eexists. split; [reflexivity|]. simpl.
  unfold Dependencies.get_user, SecurityToken.create_access_token. simpl.
  change (now + SecurityToken.minutes SecurityToken.ACCESS_TOKEN_EXPIRE_MINUTES)
    with (now + 3600).
  fold (UserTable.login_claims u now). rewrite Hlib. simpl.
  unfold Services.get_user_by_username_or_email,
    Services.get_user_by_username_or_email_traced.
  rewrite Hshape. reflexivity.
Qed.

(** The theorem at work: eve, whose username is the email address of
    bob, logs in with her own email and password; her token resolves to
    bob. *)
Lemma email_shaped_username_resolves_by_email_eve :
  exists t,
    Login.login_for_access_token PlainJose.plain_jose "key"
      Hashing.reference_bcrypt 1000 UserTable.login_db
      "eve@observers.com" "secret" = Ok t
    /\ Dependencies.get_user PlainJose.plain_jose "key" 1600
         (Login.access_token t) UserTable.login_db
       = Ok (UserTable.with_password Policy.bob).
Proof.
  destruct (email_shaped_username_resolves_by_email
              PlainJose.plain_jose "key" Hashing.reference_bcrypt
              1000 1600 UserTable.login_db "eve@observers.com" "secret"
              UserTable.eve) as (t & Hlogin & Hres).
  - vm_compute. reflexivity.
  - vm_compute. reflexivity.
  - vm_compute. reflexivity.
  - exists t. split; [exact Hlogin|]. rewrite Hres. vm_compute. reflexivity.
Defined.

(** ** The shape of an email address *)

Section EmailShape.
Import Services Language UserTable.

Lemma has_char_append (c : ascii) (s1 s2 : string) :
  has_char c (s1 ++ s2) <-> has_char c s1 \/ has_char c s2.
Proof.
  induction s1 as [|a s1 IH].
  - change ("" ++ s2)%string with s2. simpl. tauto.
  - change (String a s1 ++ s2)%string with (String a (s1 ++ s2)).
    simpl. rewrite IH. tauto.
Qed.

Lemma email_pattern_has_at (s : string) :
  matches email_pattern s -> has_char "@" s.
Proof.
  unfold email_pattern. intros H.
  inversion H as [| | r1 r2 s1 s2 _ H2 | | | |]; subst. clear H.
  inversion H2 as [| | r1 r2 s3 s4 _ H4 | | | |]; subst. clear H2.
  inversion H4 as [| | r1 r2 s5 s6 H5 _ | | | |]; subst. clear H4.
  inversion H5 as [| p c Hc | | | | |]; subst. clear H5.
  unfold lit in Hc. apply Ascii.eqb_eq in Hc. subst c.
  apply has_char_append. right.
  apply has_char_append. right.
  apply has_char_append. left. simpl. left. reflexivity.
Qed.
End EmailShape.

(** X10.  [isemail] accepts no string without an at sign; a subject
    without one is therefore always looked up in the username column,
    whatever the database holds. *)
Theorem isemail_needs_at (s : string) :
  (Services.isemail s = true -> UserTable.has_char "@" s)
  /\ (~ UserTable.has_char "@" s ->
      forall db,
        Services.get_user_by_username_or_email_traced db s
        = (Services.get_object_by_expression db (Services.User_username_eq s),
           [Services.User_username_eq s])).
Proof.
  assert (Hat : Services.isemail s = true -> UserTable.has_char "@" s).
  { intros H. apply email_pattern_has_at, fullmatch_spec. exact H. }
  split; [exact Hat|].
  intros Hno db. unfold Services.get_user_by_username_or_email_traced.
  destruct (Services.isemail s); [|reflexivity].
  exfalso. apply Hno, Hat. reflexivity.
Qed.

(** ** The registry: connecting, disconnecting, sending *)

Section RegistryRoundTrip.
Import SocketManager.
Context `{EqDecision A}.

Lemma list_remove_Permutation (x : A) (l l' : list A) :
  list_remove x l = Some l' -> l ≡ₚ x :: l'.
Proof.
  revert l'. induction l as [|y l IH]; intros l'; simpl; [discriminate|].
  destruct (decide (x = y)) as [->|Hne].
  - intros [= ->]. reflexivity.
  - destruct (list_remove x l) as [r|]; [|discriminate].
    intros [= <-]. rewrite (IH r eq_refl). apply Permutation_swap.
Qed.

Lemma list_remove_appended (x : A) (l : list A) :
  x ∉ l -> list_remove x (l ++ [x]) = Some l.
Proof.
  induction l as [|y l IH]; intros Hout; simpl.
  - rewrite decide_True by reflexivity. reflexivity.
  - apply not_elem_of_cons in Hout as [Hne Hout].
    rewrite decide_False by exact Hne. rewrite IH by exact Hout. reflexivity.
Qed.
End RegistryRoundTrip.

(** X11.  [disconnect] raises exactly for a pair that is not in the
    registry.  Disconnecting what was just connected always succeeds and
    gives back the connections there were before, the same ones up to
    their order and the very same list when the pair was not registered
    already; the only trace left is the accept on the wire. *)
Theorem disconnect_undoes_connect
        (websocket : SocketManager.WebSocket) (user : User)
        (m : SocketManager.state) :
  let conns := SocketManager.active_connections m in
  (SocketManager.disconnect websocket user m = None <-> (websocket, user) ∉ conns)
  /\ exists m',
      SocketManager.disconnect websocket user
        (SocketManager.connect websocket user m) = Some m'
      /\ SocketManager.active_connections m' ≡ₚ conns
      /\ SocketManager.traffic m'
         = SocketManager.traffic m ++ [SocketManager.Accept websocket]
      /\ ((websocket, user) ∉ conns -> SocketManager.active_connections m' = conns).
Proof.
  intros conns. split.
  - unfold SocketManager.disconnect. fold conns. split.
    + intros Hnone Hin.
      destruct (list_remove_present _ _ Hin) as (l1 & l2 & _ & _ & Hrem).
      rewrite Hrem in Hnone. discriminate Hnone.
    + intros Hout. rewrite (list_remove_absent _ _ Hout). reflexivity.
  - unfold SocketManager.disconnect, SocketManager.connect. simpl. fold conns.
    assert (Hin : (websocket, user) ∈ conns ++ [(websocket, user)]).
    { apply elem_of_app. right. apply list_elem_of_singleton. reflexivity. }
    destruct (list_remove_present _ _ Hin) as (l1 & l2 & _ & _ & Hrem).
    rewrite Hrem. eexists. split; [reflexivity|]. simpl.
    split.
    + apply list_remove_Permutation in Hrem.
      apply (Permutation_cons_inv (a := (websocket, user))).
      rewrite <- Hrem. symmetry. apply Permutation_cons_append.
    + split; [reflexivity|].
      intros Hout. rewrite (list_remove_appended _ _ Hout) in Hrem.
      congruence.
Qed.

Section ChatSafety.
Import SocketManager Chat Traffic.

(** What the endpoint keeps true of the manager. *)
Let safe (m : state) : Prop :=
  sends_follow_accepts (traffic m) /\ registered_are_accepted m.

Lemma sends_follow_accepts_app (out new : list wire) :
  sends_follow_accepts out ->
  (forall pre ws data post,
      new = pre ++ Send_json ws data :: post -> In (Accept ws) (out ++ pre)) ->
  sends_follow_accepts (out ++ new).
Proof.
  intros Hout Hnew pre ws data post Heq.
  apply app_eq_app in Heq as [l [[Hl Hr]|[Hl Hr]]].
  - destruct l as [|w l].
    + rewrite app_nil_r in Hl. subst out. simpl in Hr.
      specialize (Hnew [] ws data post (eq_sym Hr)).
      rewrite app_nil_r in Hnew. exact Hnew.
    + injection Hr as <- _. exact (Hout _ _ _ _ Hl).
  - subst pre. exact (Hnew _ _ _ _ Hr).
Qed.

Lemma send_safe (data : json) (m : state) : safe m -> safe (send data m).
Proof.
  intros [Hsends Hreg]. split.
  - unfold send. simpl. apply sends_follow_accepts_app; [exact Hsends|].
    intros pre ws d post Heq. apply in_or_app. left.
    assert (Hin : In (Send_json ws d) (deliveries data (active_connections m))).
    { rewrite Heq. apply in_or_app. right. left. reflexivity. }
    pose proof (deliveries_only _ _ _ _ Hin) as ->.
    apply deliveries_receives in Hin as [user Hin].
    exact (Hreg _ _ Hin).
  - intros ws user Hin. unfold send. simpl. apply in_or_app. left.
    exact (Hreg _ _ Hin).
Qed.

Lemma connect_safe (ws : WebSocket) (user : User) (m : state) :
  safe m -> safe (connect ws user m).
Proof.
  intros [Hsends Hreg]. split.
  - unfold connect. simpl. apply sends_follow_accepts_app; [exact Hsends|].
    intros pre ws' d post Heq. exfalso.
    destruct pre as [|w [|w' pre]]; discriminate Heq.
  - intros ws' user' Hin. unfold connect in *. simpl in *.
    apply in_or_app. apply elem_of_app in Hin as [Hin|Hin].
    + left. exact (Hreg _ _ Hin).
    + right. apply list_elem_of_singleton in Hin. injection Hin as -> _.
      left. reflexivity.
Qed.

Lemma disconnect_safe (ws : WebSocket) (user : User) (m m' : state) :
  safe m -> disconnect ws user m = Some m' -> safe m'.
Proof.
  intros [Hsends Hreg]. unfold disconnect.
  destruct (list_remove (ws, user) (active_connections m)) as [rest|] eqn:Hrem;
    [|discriminate].
  intros [= <-]. split; [exact Hsends|].
  intros ws' user' Hin. simpl in *. apply (Hreg ws' user').
  apply list_remove_Permutation in Hrem. rewrite Hrem.
  apply elem_of_cons. right. exact Hin.
Qed.

Lemma init_safe : safe init.
Proof.
  split.
  - intros pre ws data post Heq. destruct pre; discriminate Heq.
  - intros ws user Hin. inversion Hin.
Qed.

Lemma run_safe (J : SecurityToken.Jose) (SECRET_KEY : string) (now : Z) (db : Db)
      (es : list event) :
  forall m m', safe m -> run J SECRET_KEY now db es m = Some m' -> safe m'.
Proof.
  induction es as [|e es IH]; intros m m' Hsafe; simpl.
  - intros [= <-]. exact Hsafe.
  - destruct (step J SECRET_KEY now db e m) as [m1|] eqn:Hstep; [|discriminate].
    apply IH. destruct e as [ws token | ws data | ws user]; simpl in Hstep.
    + injection Hstep as <-. unfold chat_open.
      destruct (Dependencies.get_current_user_by_query J SECRET_KEY now token db);
        [|exact Hsafe].
      unfold chat_connected. apply send_safe, connect_safe, Hsafe.
    + injection Hstep as <-. apply send_safe, Hsafe.
    + unfold chat_disconnected in Hstep.
      destruct (disconnect ws user m) as [m2|] eqn:Hd; [|discriminate].
      injection Hstep as <-. apply send_safe.
      exact (disconnect_safe _ _ _ _ Hsafe Hd).
Qed.

(** X12.  Whatever sequence of opened connections, frames and closed
    connections the chat endpoint has gone through since the start of
    the process, no message was ever sent to a websocket before that
    websocket was accepted, and every registered websocket has been
    accepted. *)
Theorem chat_sends_only_to_accepted
        (J : SecurityToken.Jose) (SECRET_KEY : string) (now : Z) (db : Db)
        (es : list event) (m : state) :
  run J SECRET_KEY now db es init = Some m ->
  sends_follow_accepts (traffic m) /\ registered_are_accepted m.
Proof. intros Hrun. exact (run_safe _ _ _ _ _ _ _ init_safe Hrun). Qed.
End ChatSafety.

(** The theorem at work, on the session of bob, alice and a forged
    token. *)
Lemma chat_sends_only_to_accepted_session :
  exists m,
    Chat.run SecurityToken.reference_jose "key" 1060 Policy.sample_db
      [Chat.Open 2%nat (Policy.sample_query "bob");
       Chat.Open 1%nat (Policy.sample_query "alice");
       Chat.Open 3%nat "Bearer forged";
       Chat.Frame 1%nat (SocketManager.JObj [("foo", SocketManager.JStr "bar")]);
       Chat.Closed 1%nat Policy.alice]
      SocketManager.init = Some m
    /\ Traffic.sends_follow_accepts (SocketManager.traffic m).
Proof.
  eexists. split; [vm_compute; reflexivity|].
  eapply (chat_sends_only_to_accepted SecurityToken.reference_jose "key" 1060
            Policy.sample_db
            [Chat.Open 2%nat (Policy.sample_query "bob");
             Chat.Open 1%nat (Policy.sample_query "alice");
             Chat.Open 3%nat "Bearer forged";
             Chat.Frame 1%nat (SocketManager.JObj [("foo", SocketManager.JStr "bar")]);
             Chat.Closed 1%nat Policy.alice]).
  vm_compute. reflexivity.
Defined.

(** ** Rating an article: errors and reach *)

Section RatingReach.
Import Articles Rating.

Lemma pop_index_split (x : Z) (l : list Z) :
  x ∈ l ->
  exists l1 l2, l = l1 ++ x :: l2 /\ (x ∉ l1) /\ pop_index x l = Ok (l1 ++ l2).
Proof.
  unfold pop_index. induction l as [|y l IH]; intros Hin.
  - inversion Hin.
  - simpl. destruct (decide (x = y)) as [->|Hne].
    + exists [], l. split; [reflexivity|].
      split; [apply not_elem_of_nil|reflexivity].
    + apply elem_of_cons in Hin as [Hin|Hin]; [contradiction|].
      destruct (IH Hin) as (l1 & l2 & -> & Hl1 & Hpop).
      exists (y :: l1), l2. split; [reflexivity|].
      split; [apply not_elem_of_cons; split; assumption|].
      destruct (list_index x (l1 ++ x :: l2)) as [i|]; [|discriminate Hpop].
      simpl. destruct (list_pop i (l1 ++ x :: l2)) as [l'|];
        [|discriminate Hpop].
      simpl. injection Hpop as ->. reflexivity.
Qed.

Lemma pop_index_others (x : Z) (l l' : list Z) :
  pop_index x l = Ok l' -> forall v, v ≠ x -> v ∈ l' <-> v ∈ l.
Proof.
  intros Hpop v Hv.
  destruct (decide (x ∈ l)) as [Hin|Hout].
  - destruct (pop_index_split _ _ Hin) as (l1 & l2 & -> & _ & Hpop').
    rewrite Hpop' in Hpop. injection Hpop as <-.
    rewrite !elem_of_app, elem_of_cons. split; [tauto|].
    intros [H|[H|H]]; [tauto|contradiction|tauto].
  - exfalso. unfold pop_index in Hpop.
    assert (Hnone : list_index x l = None).
    { clear Hpop. induction l as [|y l IH]; [reflexivity|].
      apply not_elem_of_cons in Hout as [Hne Hout]. simpl.
      rewrite decide_False by exact Hne. rewrite IH by exact Hout. reflexivity. }
    rewrite Hnone in Hpop. discriminate Hpop.
Qed.

(** [rate] never raises, whatever the two lists hold, and touches the
    entries of the rating user only. *)
Lemma rate_total (a : Article) (uid : Z) (t : ArticleRatingType) :
  exists a',
    rate a uid t = Ok a'
    /\ article_id a' = article_id a
    /\ forall v t', v ≠ uid -> v ∈ getattr a' t' <-> v ∈ getattr a t'.
Proof.
  unfold rate.
  destruct (list_in uid (getattr a t)) eqn:Hmain.
  - apply list_in_spec in Hmain.
    destruct (pop_index_split _ _ Hmain) as (l1 & l2 & Hl & _ & Hpop).
    rewrite Hpop. simpl. eexists. split; [reflexivity|].
    split; [destruct t; reflexivity|].
    intros v t' Hv.
    assert (Hothers := pop_index_others _ _ _ Hpop v Hv).
    destruct t, t'; simpl in *; tauto.
  - rewrite other_name_opposite. simpl bind. rewrite getattr_setattr_opposite.
    assert (Happ : forall v, v ≠ uid ->
              v ∈ getattr a t ++ [uid] <-> v ∈ getattr a t).
    { intros v Hv. rewrite elem_of_app, list_elem_of_singleton. tauto. }
    destruct (list_in uid (getattr a (opposite t))) eqn:Hsec.
    + apply list_in_spec in Hsec.
      destruct (pop_index_split _ _ Hsec) as (l1 & l2 & Hl & _ & Hpop).
      rewrite Hpop. simpl. eexists. split; [reflexivity|].
      split; [destruct t; reflexivity|].
      intros v t' Hv.
      assert (Hothers := pop_index_others _ _ _ Hpop v Hv).
      specialize (Happ v Hv).
      destruct t, t'; simpl in *; tauto.
    + eexists. split; [reflexivity|].
      split; [destruct t; reflexivity|].
      intros v t' Hv. specialize (Happ v Hv).
      destruct t, t'; simpl in *; tauto.
Qed.
End RatingReach.

(** X13.  [update_article_rating] raises only the two 404s, for a
    missing article and for a missing user, and then changes nothing; it
    never fails on the lists themselves, whatever they hold.  A call
    that returns has written one article row: it keeps its id, the
    likes and dislikes of every other user are what they were, and the
    users, the comments and the other articles are untouched. *)
Theorem rating_is_safe_and_local
        (db : Db) (id : Z) (user : User) (t : ArticleRatingType) :
  let r := Articles.update_article_rating db id user t in
  (db_articles db !! id = None ->
   r = (Raise (Crud.does_not_exist "Article"), db))
  /\ (is_Some (db_articles db !! id) -> db_users db !! user_id user = None ->
      r = (Raise (Crud.does_not_exist "User"), db))
  /\ (forall a, db_articles db !! id = Some a ->
        is_Some (db_users db !! user_id user) ->
        exists a',
          r = (Ok a', Rating.store_article db id a')
          /\ article_id a' = article_id a
          /\ forall v, v ≠ user_id user ->
               (v ∈ article_likes a' <-> v ∈ article_likes a)
               /\ (v ∈ article_dislikes a' <-> v ∈ article_dislikes a))
  /\ db_users (snd r) = db_users db
  /\ db_comments (snd r) = db_comments db
  /\ (forall j, j ≠ id -> db_articles (snd r) !! j = db_articles db !! j).
Proof.
  intros r. subst r.
  unfold Articles.update_article_rating, Crud.get_object.
  destruct (db_articles db !! id) as [a|] eqn:Ha.
  2:{ split; [reflexivity|]. split; [intros [a [=]]|].
      split; [intros a [=]|]. split; [reflexivity|]. split; reflexivity. }
  destruct (db_users db !! user_id user) as [u|] eqn:Hu.
  2:{ split; [discriminate|]. split; [reflexivity|].
      split; [intros a0 _ [u [=]]|]. split; [reflexivity|]. split; reflexivity. }
  destruct (rate_total a (user_id user) t) as (a' & Hrate & Hid & Hothers).
  rewrite Hrate. simpl.
  split; [discriminate|]. split; [discriminate|].
  split.
  { intros a0 [= <-] _. exists a'. split; [reflexivity|]. split; [exact Hid|].
    intros v Hv. split.
    - exact (Hothers v likes Hv).
    - exact (Hothers v dislikes Hv). }
  split; [reflexivity|]. split; [reflexivity|].
  intros j Hj. apply lookup_insert_ne. congruence.
Qed.

(** ** Writing a comment *)

(** X14.  A comment is always attributed to the caller: whatever
    [author_id] the request carries, the comment stored under the new
    key has the caller as its author, holds the content sent, stands
    under the question named and is not an answer.  The author of the
    question is sent one notification, titled after the commenter and
    the question, exactly when somebody else commented; on a comment
    under one's own question the notifications are left as they were. *)
Theorem comment_is_attributed_to_caller
        (new_comment_id new_notification_id : Z) (comment : Forum.CommentCreate)
        (t : Forum.Tables) (current_user author : User)
        (q : Forum.Question) (qa : User) :
  db_users (Forum.forum_db t) !! user_id current_user = Some author ->
  Forum.forum_questions t !! Forum.cc_question_id comment = Some q ->
  db_users (Forum.forum_db t) !! Forum.question_author_id q = Some qa ->
  let r := Forum.create_comment new_comment_id new_notification_id
             comment t current_user in
  let c := {| comment_id := new_comment_id;
              comment_content := Forum.cc_content comment;
              comment_is_answer := false;
              comment_author_id := user_id current_user;
              comment_question_id := Forum.cc_question_id comment;
              comment_question_author_id := Forum.question_author_id q |} in
  fst r = inr c
  /\ db_comments (Forum.forum_db (snd r))
     = <[new_comment_id := c]> (db_comments (Forum.forum_db t))
  /\ db_users (Forum.forum_db (snd r)) = db_users (Forum.forum_db t)
  /\ Forum.forum_questions (snd r) = Forum.forum_questions t
  /\ (user_id current_user = Forum.question_author_id q ->
      Forum.forum_notifications (snd r) = Forum.forum_notifications t)
  /\ (user_id current_user ≠ Forum.question_author_id q ->
      Forum.forum_notifications (snd r)
      = <[new_notification_id :=
            {| Forum.notification_id := new_notification_id;
               Forum.notification_title :=
                 Forum.notification_title_for (user_username author)
                   (Forum.question_title q);
               Forum.notification_user_id := Forum.question_author_id q;
               Forum.notification_question_id := Forum.cc_question_id comment |}]>
          (Forum.forum_notifications t)).
Proof.
  intros Hauthor Hq Hqa r c. subst r c.
  unfold Forum.create_comment. simpl.
  unfold Forum.crud_create_comment, Crud.get_object.
  rewrite Hauthor, Hq, Hqa.
  destruct (user_id current_user =? Forum.question_author_id q) eqn:Hown; simpl.
  - apply Z.eqb_eq in Hown.
    split; [reflexivity|]. split; [reflexivity|]. split; [reflexivity|].
    split; [reflexivity|]. split; [reflexivity|].
    intros Hne. contradiction.
  - apply Z.eqb_neq in Hown.
    unfold Forum.create_notification, Crud.get_object. simpl.
    rewrite Hqa, Hq. simpl.
    split; [reflexivity|]. split; [reflexivity|]. split; [reflexivity|].
    split; [reflexivity|]. split; [intros Heq; contradiction|].
    intros _. reflexivity.
Qed.

(** The theorem at work: alice comments the question of bob and names
    bob as the author in her request. *)
Lemma comment_is_attributed_to_caller_alice :
  let r := Forum.create_comment 12 1
             {| Forum.cc_content := "me too"; Forum.cc_question_id := 100;
                Forum.cc_author_id := Some 2 |}
             ForumSample.tables Policy.alice in
  (comment_author_id <$> db_comments (Forum.forum_db (snd r)) !! 12) = Some 1
  /\ (Forum.notification_user_id <$> Forum.forum_notifications (snd r) !! 1)
     = Some 2.
Proof.
  destruct (comment_is_attributed_to_caller 12 1
              {| Forum.cc_content := "me too"; Forum.cc_question_id := 100;
                 Forum.cc_author_id := Some 2 |}
              ForumSample.tables Policy.alice Policy.alice
              {| Forum.question_id := 100; Forum.question_title := "Why?";
                 Forum.question_author_id := 2 |} Policy.bob
              eq_refl eq_refl eq_refl) as (_ & Hc & _ & _ & _ & Hn).
  split.
  - rewrite Hc, lookup_insert_eq. reflexivity.
  - rewrite Hn by discriminate. rewrite lookup_insert_eq. reflexivity.
Defined.

(** ** Changing a password *)

Section PasswordChange.
Import UserTable.

Lemma update_user_row
      (hash : string -> string) (db : Db) (uid : Z) (user : UserUpdate)
      (u' : User) :
  unique_usernames db ->
  fst (Crud.update_user hash db uid user) = Ok u' ->
  unique_usernames (snd (Crud.update_user hash db uid user))
  /\ db_users (snd (Crud.update_user hash db uid user)) !! uid = Some u'.
Proof.
  intros Hname. unfold Crud.update_user, Crud.get_object.
  destruct (db_users db !! uid) as [old|] eqn:Hold; simpl; [|discriminate].
  lazymatch goal with
  | |- context [if ?t then (Raise Crud.email_exists, _) else _] => destruct t
  end; simpl; [discriminate|].
  destruct (is_null (uu_email user) || is_null (uu_password user)
            || is_null (uu_profile_image user)); simpl; [discriminate|].
  intros [= <-]. split; [|apply lookup_insert_eq].
  intros k1 k2 u1 u2 H1 H2 Heq. simpl in H1, H2.
  apply lookup_insert_Some in H1 as [[<- <-]|[Hne1 H1]];
    apply lookup_insert_Some in H2 as [[<- <-]|[Hne2 H2]]; simpl in Heq.
  - reflexivity.
  - exact (Hname _ _ _ _ Hold H2 Heq).
  - exact (Hname _ _ _ _ H1 Hold Heq).
  - exact (Hname _ _ _ _ H1 H2 Heq).
Qed.

Lemma update_user_password_stored
      (hash : string -> string) (db : Db) (uid : Z) (user : UserUpdate)
      (u' : User) (p : string) :
  fst (Crud.update_user hash db uid user) = Ok u' ->
  value_of (uu_password user) = Some p ->
  user_password u' = (if String.eqb p "" then p else hash p).
Proof.
  unfold Crud.update_user, Crud.get_object.
  destruct (db_users db !! uid) as [old|]; simpl; [|discriminate].
  lazymatch goal with
  | |- context [if ?t then (Raise Crud.email_exists, _) else _] => destruct t
  end; simpl; [discriminate|].
  destruct (is_null (uu_email user) || is_null (uu_password user)
            || is_null (uu_profile_image user)); simpl; [discriminate|].
  intros [= <-] ->. simpl. destruct (String.eqb p ""); reflexivity.
Qed.
End PasswordChange.

(** X15.  After a user has set a new, non-empty password through
    [update_user], that password logs the user in: when the table is in
    order, the username does not look like an email address and the
    hashing library verifies the password against the hash it has just
    made of it, [authenticate_user] on the updated database returns the
    updated row. *)
Theorem new_password_logs_in
        (B : Hashing.Bcrypt) (salt : string) (db : Db) (uid : Z)
        (user : UserUpdate) (p : string) (u' : User) :
  UserTable.users_ok db ->
  value_of (uu_email user) ≠ Some "" ->
  value_of (uu_password user) = Some p ->
  p ≠ "" ->
  let r := Crud.update_user (Hashing.get_password_hash B salt) db uid user in
  fst r = Ok u' ->
  Services.isemail (user_username u') = false ->
  Hashing.verify_password B p (Hashing.get_password_hash B salt p) = Ok true ->
  Login.authenticate_user B (snd r) (user_username u') p = Ok (Some u').
Proof.
  intros (_ & Hname0 & _) Hemail Hp Hne r Hret Hshape Hlib.
  destruct (update_user_row _ _ _ _ _ Hname0 Hret) as [Hname Hstored].
  pose proof (update_user_password_stored _ _ _ _ _ _ Hret Hp) as Hpw.
  apply String.eqb_neq in Hne. rewrite Hne in Hpw.
  unfold Login.authenticate_user. fold r in Hname, Hstored.
  rewrite (lookup_own_username _ _ _ Hname Hstored Hshape).
  rewrite Hpw, Hlib. reflexivity.
Qed.

(** The theorem at work: alice sets the password [hunter2]. *)
Lemma new_password_logs_in_alice :
  let hash := Hashing.get_password_hash Hashing.reference_bcrypt
                "0123456789abcdefghijkl" in
  let r := Crud.update_user hash Policy.sample_db 1
             {| uu_email := Absent; uu_password := Given "hunter2";
                uu_profile_image := Absent |} in
  let u' := {| user_id := 1; user_username := "alice";
               user_email := "alice@observers.com";
               user_password := hash "hunter2";
               user_role := Policy.role_user |} in
  fst r = Ok u'
  /\ Login.authenticate_user Hashing.reference_bcrypt (snd r) "alice" "hunter2"
     = Ok (Some u').
Proof.
  intros hash r u'. split; [vm_compute; reflexivity|].
  apply (new_password_logs_in Hashing.reference_bcrypt "0123456789abcdefghijkl"
           Policy.sample_db 1
           {| uu_email := Absent; uu_password := Given "hunter2";
              uu_profile_image := Absent |} "hunter2" u').
  - exact sample_db_users_ok.
  - discriminate.
  - reflexivity.
  - discriminate.
  - vm_compute. reflexivity.
  - vm_compute. reflexivity.
  - vm_compute. reflexivity.
Defined.

(** X16.  An empty string sent as the new password is stored as it is,
    not as a hash: [update_user] hashes under [if user.password:].  From
    then on a login of that user checks the password tried against the
    empty string: [authenticate_user] answers as the context answers
    for an empty hash, and what the context raises for it leaves
    [authenticate_user] and the token endpoint. *)
Theorem empty_password_is_stored_unhashed
        (hash : string -> string) (db : Db) (uid : Z) (user : UserUpdate)
        (u' : User) :
  UserTable.users_ok db ->
  value_of (uu_email user) ≠ Some "" ->
  value_of (uu_password user) = Some "" ->
  let r := Crud.update_user hash db uid user in
  fst r = Ok u' ->
  Services.isemail (user_username u') = false ->
  user_password u' = ""
  /\ db_users (snd r) !! uid = Some u'
  /\ (forall B attempt,
        Login.authenticate_user B (snd r) (user_username u') attempt
        = match Hashing.verify_password B attempt "" with
          | Ok true => Ok (Some u')
          | Ok false => Ok None
          | Raise e => Raise e
          end)
  /\ (forall J SECRET_KEY B now attempt e,
        Hashing.verify_password B attempt "" = Raise e ->
        Login.login_for_access_token J SECRET_KEY B now (snd r)
          (user_username u') attempt = Raise e).
Proof.
  intros (_ & Hname0 & _) Hemail Hp r Hret Hshape.
  destruct (update_user_row _ _ _ _ _ Hname0 Hret) as [Hname Hstored].
  pose proof (update_user_password_stored _ _ _ _ _ _ Hret Hp) as Hpw.
  simpl in Hpw.
  split; [exact Hpw|]. split; [exact Hstored|].
  fold r in Hname, Hstored.
  assert (Hauth : forall B attempt,
            Login.authenticate_user B (snd r) (user_username u') attempt
            = match Hashing.verify_password B attempt "" with
              | Ok true => Ok (Some u')
              | Ok false => Ok None
              | Raise e => Raise e
              end).
  { intros B attempt. unfold Login.authenticate_user.
    rewrite (lookup_own_username _ _ _ Hname Hstored Hshape), Hpw.
    reflexivity. }
  split; [exact Hauth|].
  intros J SECRET_KEY B now attempt e He.
  unfold Login.login_for_access_token. rewrite Hauth, He. reflexivity.
Qed.

(** The theorem at work: alice sends an empty password, the stand-in
    context refusing the empty string as a hash. *)
Lemma empty_password_is_stored_unhashed_alice :
  let r := Crud.update_user (fun p => ("hash of " ++ p)%string) Policy.sample_db 1
             {| uu_email := Absent; uu_password := Given "";
                uu_profile_image := Absent |} in
  (user_password <$> db_users (snd r) !! 1) = Some ""
  /\ exists e,
      Login.login_for_access_token SecurityToken.reference_jose "key"
        Hashing.reference_bcrypt 1000 (snd r) "alice" "" = Raise e.
Proof.
  intros r.
  destruct (empty_password_is_stored_unhashed
              (fun p => ("hash of " ++ p)%string)
              Policy.sample_db 1
              {| uu_email := Absent; uu_password := Given "";
                 uu_profile_image := Absent |}
              {| user_id := 1; user_username := "alice";
                 user_email := "alice@observers.com";
                 user_password := ""; user_role := Policy.role_user |})
    as (_ & Hrow & _ & Hlogin).
  - exact sample_db_users_ok.
  - discriminate.
  - reflexivity.
  - vm_compute. reflexivity.
  - vm_compute. reflexivity.
  - split.
    + fold r in Hrow. rewrite Hrow. reflexivity.
    + exists Hashing.reference_refusal.
      exact (Hlogin SecurityToken.reference_jose "key" Hashing.reference_bcrypt
               1000 "" Hashing.reference_refusal eq_refl).
Defined.
